(** * Medibill: from object detections to bill rows

    A shallow embedding of the extraction pipeline of the Medibill
    application, [src/utils/rowGrouping.ts] (the "row-captain" grouping)
    and [src/utils/billExtraction.ts] (metadata extraction, filtering and
    assembly), followed by the properties of the pipeline.

    Modelling conventions.
    - A JavaScript [number] is the rational ([Q]) it denotes, and the
      arithmetic is that of IEEE 754 binary64: [Js.add], [Js.sub] and
      [Js.div] round the exact result to the nearest double, ties to even
      ([Js.double]), subnormals included.  A comparator that returns a
      difference [a - b] to [sort] is used for its sign only, and the sign
      of the rounded difference of two doubles is that of the exact one
      (the difference of two different doubles is at least the smallest
      subnormal): these differences are left exact.  The value [Infinity],
      which only initialises two loop variables of [findNearestAnchor], is
      the [None] of an [option Q].  [NaN] and overflow (magnitudes from
      [2^1024] on) are outside the model.
    - A JavaScript string is a [string] of 8-bit code units; the whitespace
      and the letters with case are those of ASCII, so that [trim],
      [toLowerCase] and [\s] are those of the code on the labels made of
      ASCII characters ([asciiOnly]).
    - An optional property ([value?], [width?], a [class] the upstream JSON
      left out) is an [option]; [None] is [undefined].
    - Reading a property of [undefined] raises: fallible functions return a
      [result].
    - [Array.prototype.sort] is the stable insertion sort [Js.sort]: the
      array that every stable sort returns when the comparator is a
      consistent order.  The comparator of the candidates of a slot is not
      one on every array; on a pair it is, and the statements on the winner
      of longer arrays are those of the insertion sort.
    - The objects of the input array are pairwise distinct (they are created
      by [convertToBboxFormat], one per input record); an anchor reference
      is represented by its position in the sorted array of anchors. *)

From Stdlib Require Import List String Ascii Bool Arith ZArith Lia.
From Stdlib Require Import QArith Qabs Qround Lqa DecimalString Permutation Sorted.
Import ListNotations.
Local Close Scope Q_scope.
Local Open Scope string_scope.

(** ** Exceptions *)

Inductive JsError : Type := TypeError.

Inductive result (A : Type) : Type :=
| Ok (a : A)
| Throw (e : JsError).
Arguments Ok {A} a.
Arguments Throw {A} e.

Definition bind {A B : Type} (m : result A) (k : A -> result B) : result B :=
  match m with
  | Ok a => k a
  | Throw e => Throw e
  end.

Notation "x <- m ;; k" := (bind m (fun x => k))
  (at level 61, m at next level, right associativity).

(** [for (const a of l) { acc = step(acc, a) }] where [step] may raise. *)
Fixpoint foldM {A S : Type} (step : S -> A -> result S) (l : list A) (acc : S)
  : result S :=
  match l with
  | [] => Ok acc
  | a :: l' => acc' <- step acc a ;; foldM step l' acc'
  end.

Fixpoint mapM {A B : Type} (f : A -> result B) (l : list A) : result (list B) :=
  match l with
  | [] => Ok []
  | a :: l' => b <- f a ;; bs <- mapM f l' ;; Ok (b :: bs)
  end.

(** ** The JavaScript built-ins the pipeline uses *)

Module Js.

(** [\s] and the characters removed by [trim], within ASCII. *)
Definition isWhiteSpace (c : ascii) : bool :=
  let n := nat_of_ascii c in
  ((9 <=? n)%nat && (n <=? 13)%nat) || (n =? 32)%nat.

Definition toLowerChar (c : ascii) : ascii :=
  let n := nat_of_ascii c in
  if (65 <=? n)%nat && (n <=? 90)%nat then ascii_of_nat (n + 32) else c.

Fixpoint toLowerCase (s : string) : string :=
  match s with
  | EmptyString => EmptyString
  | String c s' => String (toLowerChar c) (toLowerCase s')
  end.

Fixpoint trimStart (s : string) : string :=
  match s with
  | EmptyString => EmptyString
  | String c s' => if isWhiteSpace c then trimStart s' else s
  end.

Fixpoint trimEnd (s : string) : string :=
  match s with
  | EmptyString => EmptyString
  | String c s' =>
      match trimEnd s' with
      | EmptyString => if isWhiteSpace c then EmptyString else String c EmptyString
      | t => String c t
      end
  end.

Definition trim (s : string) : string := trimEnd (trimStart s).

(** [s.replace(/\s+/g, ' ')]: [inRun] tells that the previous character
    belonged to the run of whitespace being replaced. *)
Fixpoint collapseFrom (inRun : bool) (s : string) : string :=
  match s with
  | EmptyString => EmptyString
  | String c s' =>
      if isWhiteSpace c
      then if inRun then collapseFrom true s'
           else String " " (collapseFrom true s')
      else String c (collapseFrom false s')
  end.

Definition collapseWhiteSpace (s : string) : string := collapseFrom false s.

Definition startsWith (s pat : string) : bool := String.prefix pat s.

Fixpoint includes (s pat : string) : bool :=
  String.prefix pat s
  || match s with
     | EmptyString => false
     | String _ s' => includes s' pat
     end.

(** [patterns.some(pattern => s.includes(pattern))] *)
Definition includesSome (s : string) (patterns : list string) : bool :=
  existsb (includes s) patterns.

(** Truthiness of a possibly missing string: [undefined] and [''] are falsy. *)
Definition truthy (s : option string) : bool :=
  match s with
  | Some (String _ _) => true
  | _ => false
  end.

(** [s || ''] *)
Definition orEmpty (s : option string) : string :=
  match s with
  | Some v => v
  | None => ""
  end.

(** [n || 0] on a possibly missing number. *)
Definition orZero (n : option Q) : Q :=
  match n with
  | Some q => q
  | None => 0%Q
  end.

(** [a === b] between a string property and a [string | null] field. *)
Definition strictEq (a b : option string) : bool :=
  match a, b with
  | Some u, Some v => String.eqb u v
  | _, _ => false
  end.

Definition ltb (a b : Q) : bool := negb (Qle_bool b a).

(** *** Double precision

    The integer nearest to [x], ties to the even one. *)
Definition roundHalfEven (x : Q) : Z :=
  let f := Qfloor x in
  match Qcompare (x - inject_Z f) (1 # 2) with
  | Lt => f
  | Gt => (f + 1)%Z
  | Eq => if Z.even f then f else (f + 1)%Z
  end.

(** [s >= 0] counted in units of [2^-1074], the smallest subnormal: below
    [2^53] units the doubles are the integers; from there on a binade
    [2^e <= s < 2^(e+1)] holds the multiples of [2^(e-52)]. *)
Definition roundScaled (s : Q) : Z :=
  let k := Z.max 0 (Z.log2 (Qfloor s) - 52) in
  (roundHalfEven (s / inject_Z (2 ^ k)) * 2 ^ k)%Z.

Definition scale : positive := Pos.pow 2 1074.

Definition roundPos (q : Q) : Q :=
  Qred (Qmake (roundScaled (q * inject_Z (Zpos scale))) scale).

(** The double nearest to [q]: the value of a decimal literal, and the
    rounding of every arithmetic operation. *)
Definition double (q : Q) : Q :=
  let r := Qred q in
  if ltb r 0 then Qopp (roundPos (Qopp r)) else roundPos r.

(** [a + b], [a - b] and [a / b] *)
Definition add (a b : Q) : Q := double (a + b).
Definition sub (a b : Q) : Q := double (a - b).
Definition div (a b : Q) : Q := double (a / b).

(** [a < b] where [b] may be [Infinity] ([None]). *)
Definition ltInf (a : Q) (b : option Q) : bool :=
  match b with
  | None => true
  | Some q => ltb a q
  end.

(** Template literal [`${n}`] of a natural number. *)
Definition numberToString (n : nat) : string :=
  NilEmpty.string_of_uint (Nat.to_uint n).

Section Sort.
Context {A : Type} (compareFn : A -> A -> Q).

(** [a] stood before every element of [l] in the array: it stays before
    the first [b] that the comparator does not put strictly before it. *)
Fixpoint insert (a : A) (l : list A) : list A :=
  match l with
  | [] => [a]
  | b :: l' =>
      if Qle_bool (compareFn a b) 0%Q then a :: l else b :: insert a l'
  end.

Fixpoint sort (l : list A) : list A :=
  match l with
  | [] => []
  | a :: l' => insert a (sort l')
  end.
End Sort.

End Js.

(** ** rowGrouping.ts: data *)

Record BBox : Type := mkBBox {
  x : Q;
  y : Q;
  width : Q;
  height : Q
}.

Record Prediction : Type := mkPrediction {
  class : option string;
  bbox : BBox;
  confidence : Q;
  value : option string
}.

Record Row : Type := mkRow {
  medName : option string;
  batchExp : option string;
  quantity : option string;
  hsnCode : option string;
  amount : option string
}.

(** [keyof Row] *)
Inductive FieldName : Type := MedName | BatchExp | Quantity | HsnCode | Amount.

Definition FieldName_eqb (f g : FieldName) : bool :=
  match f, g with
  | MedName, MedName | BatchExp, BatchExp | Quantity, Quantity
  | HsnCode, HsnCode | Amount, Amount => true
  | _, _ => false
  end.

(** [row[fieldName]] *)
Definition getField (fieldName : FieldName) (row : Row) : option string :=
  match fieldName with
  | MedName => medName row
  | BatchExp => batchExp row
  | Quantity => quantity row
  | HsnCode => hsnCode row
  | Amount => amount row
  end.

(** [row[fieldName] = v] *)
Definition setField (fieldName : FieldName) (v : option string) (row : Row) : Row :=
  match fieldName with
  | MedName => mkRow v (batchExp row) (quantity row) (hsnCode row) (amount row)
  | BatchExp => mkRow (medName row) v (quantity row) (hsnCode row) (amount row)
  | Quantity => mkRow (medName row) (batchExp row) v (hsnCode row) (amount row)
  | HsnCode => mkRow (medName row) (batchExp row) (quantity row) v (amount row)
  | Amount => mkRow (medName row) (batchExp row) (quantity row) (hsnCode row) v
  end.

Definition FIELD_MAPPING : list (string * FieldName) :=
  [ ("Med Name", MedName);
    ("Batch Exp", BatchExp);
    ("Quantity", Quantity);
    ("HSN Code", HsnCode);
    ("Amount", Amount) ].

(** ** rowGrouping.ts: classification *)

Definition normalizeClassName (className : string) : string :=
  Js.collapseWhiteSpace (Js.toLowerCase (Js.trim className)).

(** A call [f(prediction.class)] of a function that starts with
    [className.trim()]: a missing class raises a [TypeError]. *)
Definition withClass {A : Type} (f : string -> A) (className : option string)
  : result A :=
  match className with
  | Some c => Ok (f c)
  | None => Throw TypeError
  end.

Definition isAnchorClass (className : string) : bool :=
  let normalized := normalizeClassName className in
  String.eqb normalized "med name"
  || String.eqb normalized "medname"
  || String.eqb normalized "medicine name"
  || String.eqb normalized "medicine"
  || String.eqb normalized "med"
  || String.eqb normalized "item"
  || String.eqb normalized "product"
  || Js.includes normalized "med name"
  || Js.includes normalized "medicine"
  || Js.startsWith normalized "med".

Definition getFieldName (className : string) : option FieldName :=
  let normalized := normalizeClassName className in
  match find (fun kv => String.eqb (normalizeClassName (fst kv)) normalized)
             FIELD_MAPPING with
  | Some (_, v) => Some v
  | None =>
      if Js.includes normalized "med name" || Js.includes normalized "medname"
         || Js.includes normalized "medicine name" then Some MedName
      else if Js.includes normalized "batch exp"
              || Js.includes normalized "batchexp" then Some BatchExp
      else if Js.includes normalized "quantity"
              || String.eqb normalized "qty" then Some Quantity
      else if Js.includes normalized "hsn code"
              || Js.includes normalized "hsncode" then Some HsnCode
      else if Js.includes normalized "amount"
              || Js.includes normalized "price" then Some Amount
      else None
  end.

Definition getVerticalCenter (b : BBox) : Q :=
  Js.add (y b) (Js.div (height b) 2).

(** ** rowGrouping.ts: nearest anchor *)

(** The three loop variables of [findNearestAnchor]; the anchor is kept as
    its index in [anchors], and [None] is [null], resp. [Infinity]. *)
Record Nearest : Type := mkNearest {
  nearestAnchor : option nat;
  minDistance : option Q;
  nearestAnchorY : option Q
}.

(** [Math.abs(distance - minDistance) < 5] *)
Definition withinTieWindow (distance : Q) (minDistance : option Q) : bool :=
  match minDistance with
  | None => false
  | Some m => Js.ltb (Qabs (Js.sub distance m)) 5%Q
  end.

Definition nearestStep (predCenter : Q) (st : Nearest) (ia : nat * Prediction)
  : Nearest :=
  let anchorCenter := getVerticalCenter (bbox (snd ia)) in
  let distance := Qabs (Js.sub predCenter anchorCenter) in
  let taken := mkNearest (Some (fst ia)) (Some distance) (Some anchorCenter) in
  if withinTieWindow distance (minDistance st) then
    if Js.ltInf anchorCenter (nearestAnchorY st) then taken else st
  else if Js.ltInf distance (minDistance st) then taken
  else st.

(** [anchors] with the index of each element. *)
Definition indexed {A : Type} (l : list A) : list (nat * A) :=
  combine (seq 0 (List.length l)) l.

Definition findNearestAnchor (prediction : Prediction) (anchors : list Prediction)
  : option nat :=
  let predCenter := getVerticalCenter (bbox prediction) in
  nearestAnchor
    (fold_left (nearestStep predCenter) (indexed anchors)
               (mkNearest None None None)).

(** ** rowGrouping.ts: groupByRowCaptain *)

Definition emptyRow : Row := mkRow None None None None None.

(** The two arrays filled by the partition loop; a prediction whose class is
    falsy is skipped. *)
Definition isAnchor (prediction : Prediction) : bool :=
  match class prediction with
  | Some c => Js.truthy (Some c) && isAnchorClass c
  | None => false
  end.

Definition isNonAnchor (prediction : Prediction) : bool :=
  match class prediction with
  | Some c => Js.truthy (Some c) && negb (isAnchorClass c)
  | None => false
  end.

(** Body of the loop of the zero-anchor path. *)
Definition fallbackStep (row : Row) (prediction : Prediction) : result Row :=
  fieldName <- withClass getFieldName (class prediction) ;;
  match fieldName with
  | Some f =>
      match getField f row with
      | None => Ok (setField f (class prediction) row)
      | Some _ => Ok row
      end
  | None => Ok row
  end.

Definition compareAnchors (a b : Prediction) : Q :=
  (getVerticalCenter (bbox a) - getVerticalCenter (bbox b))%Q.

(** [`Medicine ${index + 1}`] *)
Definition placeholderName (index : nat) : string :=
  "Medicine " ++ Js.numberToString (index + 1).

Definition newRow (index : nat) : Row :=
  mkRow (Some (placeholderName index)) None None None None.

(** The group of the anchor of index [i]: the non-anchors whose nearest
    anchor it is, in the order of the input. *)
Definition assignedTo (anchors nonAnchors : list Prediction) (i : nat)
  : list Prediction :=
  filter (fun p => match findNearestAnchor p anchors with
                   | Some j => Nat.eqb j i
                   | None => false
                   end) nonAnchors.

Definition fieldPriority : list FieldName :=
  [MedName; BatchExp; Quantity; HsnCode; Amount].

(** Comparator of the candidates of one field: [confDiff] is the rounded
    difference, compared with the double written [0.01]. *)
Definition compareCandidates (a b : Prediction) : Q :=
  let confDiff := Js.sub (confidence b) (confidence a) in
  if Js.ltb (Js.double (1 # 100)) (Qabs confDiff) then confDiff
  else (x (bbox a) - x (bbox b))%Q.

(** What is written into [row[fieldName]] for the winning prediction. *)
Definition fieldValue (fieldName : FieldName) (prediction : Prediction)
  : option string :=
  if Js.truthy (value prediction) then value prediction
  else match fieldName with
       | Quantity => Some "1"
       | Amount => Some "0"
       | HsnCode => Some "3004"
       | _ => class prediction
       end.

(** [predictionsByField.get(fieldName)], from the classified predictions. *)
Definition candidatesOf (classified : list (option FieldName * Prediction))
  (fieldName : FieldName) : list Prediction :=
  map snd
    (filter (fun fp => match fst fp with
                       | Some f => FieldName_eqb f fieldName
                       | None => false
                       end) classified).

(** The prediction whose value fills the slot: the head of the sorted
    candidates. *)
Definition winner (fieldPredictions : list Prediction) : option Prediction :=
  hd_error (Js.sort compareCandidates fieldPredictions).

Definition assignField (classified : list (option FieldName * Prediction))
  (row : Row) (fieldName : FieldName) : Row :=
  match fieldName with
  | MedName => row
  | _ =>
      match winner (candidatesOf classified fieldName) with
      | Some prediction => setField fieldName (fieldValue fieldName prediction) row
      | None => row
      end
  end.

(** Body of the loop over [predictionsByAnchor.entries()]. *)
Definition fillRow (row : Row) (assignedPredictions : list Prediction)
  : result Row :=
  classified <- mapM (fun p => f <- withClass getFieldName (class p) ;; Ok (f, p))
                     assignedPredictions ;;
  Ok (fold_left (assignField classified) fieldPriority row).

(** Comparator of the final [rows.sort]. *)
Definition compareRows (anchors : list Prediction) (a b : Row) : Q :=
  match find (fun anchor => Js.strictEq (class anchor) (medName a)) anchors,
        find (fun anchor => Js.strictEq (class anchor) (medName b)) anchors with
  | Some aAnchor, Some bAnchor =>
      (getVerticalCenter (bbox aAnchor) - getVerticalCenter (bbox bAnchor))%Q
  | _, _ => 0%Q
  end.

(** The rows after the filling loop, before the final sort: row [i] belongs
    to the anchor of index [i] of the sorted anchors. *)
Definition filledRows (anchors nonAnchors : list Prediction) : result (list Row) :=
  mapM (fun i => fillRow (newRow i) (assignedTo anchors nonAnchors i))
       (seq 0 (List.length anchors)).

Definition groupByRowCaptain (predictions : list Prediction) : result (list Row) :=
  match predictions with
  | [] => Ok []
  | _ =>
      let anchors := filter isAnchor predictions in
      let nonAnchors := filter isNonAnchor predictions in
      match anchors with
      | [] =>
          row <- foldM fallbackStep predictions emptyRow ;;
          Ok [row]
      | _ =>
          let anchors := Js.sort compareAnchors anchors in
          rows <- filledRows anchors nonAnchors ;;
          Ok (Js.sort (compareRows anchors) rows)
      end
  end.

(** Input records of [convertToBboxFormat] and [extractBillData]. *)
Record RawPrediction : Type := mkRaw {
  raw_class : option string;
  raw_x : Q;
  raw_y : Q;
  raw_width : option Q;
  raw_height : option Q;
  raw_confidence : option Q;
  raw_value : option string
}.

Definition convertToBboxFormat (predictions : list RawPrediction)
  : list Prediction :=
  map (fun pred =>
         mkPrediction (raw_class pred)
           (mkBBox (raw_x pred) (raw_y pred)
                   (Js.orZero (raw_width pred)) (Js.orZero (raw_height pred)))
           (Js.orZero (raw_confidence pred))
           (raw_value pred))
      predictions.

(** ** billExtraction.ts *)

Record BillMetadata : Type := mkMetadata {
  customerName : option string;
  customerPhone : option string;
  customerAddress : option string;
  billNumber : option string;
  billDate : option string;
  doctorName : option string
}.

Record ExtractedBillData : Type := mkExtracted {
  medicines : list Row;
  metadata : BillMetadata;
  totalMedicines : nat
}.

(** [keyof BillMetadata] *)
Inductive MetaField : Type :=
| CustomerName | CustomerPhone | CustomerAddress | BillNumber | BillDate
| DoctorName.

(** [Object.keys(metadata)], in the order of the object literal. *)
Definition metadataKeys : list MetaField :=
  [CustomerName; CustomerPhone; CustomerAddress; BillNumber; BillDate; DoctorName].

Definition getMeta (field : MetaField) (m : BillMetadata) : option string :=
  match field with
  | CustomerName => customerName m
  | CustomerPhone => customerPhone m
  | CustomerAddress => customerAddress m
  | BillNumber => billNumber m
  | BillDate => billDate m
  | DoctorName => doctorName m
  end.

Definition setMeta (field : MetaField) (v : option string) (m : BillMetadata)
  : BillMetadata :=
  match field with
  | CustomerName =>
      mkMetadata v (customerPhone m) (customerAddress m) (billNumber m)
                 (billDate m) (doctorName m)
  | CustomerPhone =>
      mkMetadata (customerName m) v (customerAddress m) (billNumber m)
                 (billDate m) (doctorName m)
  | CustomerAddress =>
      mkMetadata (customerName m) (customerPhone m) v (billNumber m)
                 (billDate m) (doctorName m)
  | BillNumber =>
      mkMetadata (customerName m) (customerPhone m) (customerAddress m) v
                 (billDate m) (doctorName m)
  | BillDate =>
      mkMetadata (customerName m) (customerPhone m) (customerAddress m)
                 (billNumber m) v (doctorName m)
  | DoctorName =>
      mkMetadata (customerName m) (customerPhone m) (customerAddress m)
                 (billNumber m) (billDate m) v
  end.

Definition METADATA_CLASSES (field : MetaField) : list string :=
  match field with
  | CustomerName => ["customer name"; "customer"; "name"; "patient name"; "patient"]
  | CustomerPhone => ["phone"; "mobile"; "contact"; "phone number"; "mobile number"]
  | CustomerAddress => ["address"; "location"; "residence"]
  | BillNumber => ["bill number"; "bill no"; "invoice number"; "invoice no"; "bill no."]
  | BillDate => ["date"; "bill date"; "invoice date"; "dated"]
  | DoctorName => ["doctor"; "doctor name"; "prescribed by"; "dr."]
  end.

Definition matchesMetadataField (className : string) (field : MetaField) : bool :=
  let normalized := normalizeClassName className in
  Js.includesSome normalized (METADATA_CLASSES field).

(** The test shared by [extractMetadata] (skip) and
    [filterMedicinePredictions] (keep), on the normalized class name. *)
Definition isMedicineRelated (normalized : string) : bool :=
  Js.includes normalized "med name"
  || Js.includes normalized "batch exp"
  || Js.includes normalized "quantity"
  || Js.includes normalized "hsn code"
  || Js.includes normalized "amount".

Definition emptyMetadata : BillMetadata :=
  mkMetadata None None None None None None.

(** The inner loop over the keys: the first field that is still [null] and
    matches is set, and the loop is left. *)
Definition firstMatch (m : BillMetadata) (className : string) : option MetaField :=
  find (fun field => match getMeta field m with
                     | None => matchesMetadataField className field
                     | Some _ => false
                     end) metadataKeys.

Definition metadataStep (m : BillMetadata) (prediction : Prediction)
  : BillMetadata :=
  let className := Js.orEmpty (class prediction) in
  if isMedicineRelated (normalizeClassName className) then m
  else match firstMatch m className with
       | Some field => setMeta field (Some className) m
       | None => m
       end.

Definition compareConfidence (a b : Prediction) : Q :=
  (confidence b - confidence a)%Q.

Definition extractMetadata (predictions : list Prediction) : BillMetadata :=
  let sortedPredictions := Js.sort compareConfidence predictions in
  fold_left metadataStep sortedPredictions emptyMetadata.

Definition keepMedicine (pred : Prediction) : bool :=
  let className := normalizeClassName (Js.orEmpty (class pred)) in
  if isMedicineRelated className then true
  else if existsb (fun field => Js.includesSome className (METADATA_CLASSES field))
                  metadataKeys then false
  else true.

Definition filterMedicinePredictions (predictions : list Prediction)
  : list Prediction :=
  filter keepMedicine predictions.

Definition hasName (row : Row) : bool :=
  match medName row with
  | Some _ => true
  | None => false
  end.

Definition extractBillData (predictions : list RawPrediction)
  : result ExtractedBillData :=
  let predictionsWithBbox := convertToBboxFormat predictions in
  let metadata := extractMetadata predictionsWithBbox in
  let medicinePredictions := filterMedicinePredictions predictionsWithBbox in
  medicines <- groupByRowCaptain medicinePredictions ;;
  let validMedicines := filter hasName medicines in
  Ok (mkExtracted validMedicines metadata (List.length validMedicines)).

(** ** Test vectors *)

Definition box (yTop h : Q) : BBox := mkBBox 0%Q yTop 0%Q h.

Definition det (c : string) (b : BBox) (conf : Q) (v : option string) : Prediction :=
  mkPrediction (Some c) b conf v.

(** ** Definitions used by the statements *)

(** The classification computed by [fillRow], when every class is there. *)
Definition classify (assigned : list Prediction)
  : list (option FieldName * Prediction) :=
  map (fun p => (getFieldName (Js.orEmpty (class p)), p)) assigned.

(** The row of the anchor of index [i] after the filling loop. *)
Definition filledRow (anchors nonAnchors : list Prediction) (i : nat) : Row :=
  fold_left (assignField (classify (assignedTo anchors nonAnchors i)))
            fieldPriority (newRow i).

(** Two anchors whose labels are the placeholder names of each other's
    rows. *)
Definition swappedLabels : list Prediction :=
  [ det "Medicine 2" (box 0 0) 1 None;
    det "Medicine 1" (box 10 0) 1 None ].

(** An anchor with the value "Crocin", a quantity with the value "5" and a
    detection classified as medicine name with the value "Dolo 650". *)
Definition namedDetections : list Prediction :=
  [ det "Med Name" (box 100 0) 1 (Some "Crocin");
    det "Quantity" (box 102 0) (9 # 10) (Some "5");
    det "Tab Medname" (box 101 0) (9 # 10) (Some "Dolo 650") ].

(** A detection whose class is missing. *)
Definition unlabelled : Prediction := mkPrediction None (box 0 0) 1 None.

(** Vertical center of the box of a prediction. *)
Definition center (p : Prediction) : Q := getVerticalCenter (bbox p).

(** Absolute vertical distance between the centers of two predictions, as
    the loop computes it: [Math.abs(predCenter - anchorCenter)]. *)
Definition distanceTo (p a : Prediction) : Q :=
  Qabs (Js.sub (center p) (center a)).

(** The state of the loop after the anchors [l]. *)
Definition nearestAfter (p : Prediction) (l : list Prediction) : Nearest :=
  fold_left (nearestStep (getVerticalCenter (bbox p))) (indexed l)
            (mkNearest None None None).

(** Two anchors at the vertical centers 100 and 106 and a quantity at the
    center 103. *)
Definition tieExample : list Prediction :=
  [ det "Med Name" (box 100 0) 1 None;
    det "Med Name" (box 106 0) 1 None;
    det "Quantity" (box 103 0) 1 None ].

(** Boxes with a height: anchors from 90 to 110 and from 100 to 112
    (centers 100 and 106) and a quantity from 101 to 105 (center 103). *)
Definition tallTieExample : list Prediction :=
  [ det "Med Name" (box 90 20) 1 None;
    det "Med Name" (box 100 12) 1 None;
    det "Quantity" (box 101 4) 1 None ].

(** Anchors from 90 to 110 and from 120 to 160 (centers 100 and 140) and an
    amount from 100 to 178 (center 139): its top edge is nearer to the top
    edge of the first anchor, its center to the center of the second. *)
Definition tallFarExample : list Prediction :=
  [ det "Med Name" (box 90 20) 1 None;
    det "Med Name" (box 120 40) 1 None;
    det "Amount" (box 100 78) 1 None ].

(** A quantity at [105.1] between anchors at [100] and [105.2]: the
    distances are the doubles [5.099999999999994] and
    [0.10000000000000853], and their rounded difference is less than 5
    although the difference of the decimal numbers is 5. *)
Definition roundedWindowExample : list Prediction :=
  [ det "Med Name" (box 100 0) 1 None;
    det "Med Name" (box (Js.double (1052 # 10)) 0) 1 None;
    det "Quantity" (box (Js.double (1051 # 10)) 0) 1 None ].

(** [0.01] *)
Definition oneHundredth : Q := Js.double (1 # 100).

(** [Math.abs(confDiff)] when the comparator is called on [a] and [b]: the
    absolute difference of the confidences as computed in doubles. *)
Definition confidenceGap (a b : Prediction) : Q :=
  Qabs (Js.sub (confidence b) (confidence a)).

(** [w] wins against [c]: its confidence is higher and the computed
    difference is more than 0.01, or the computed difference is at most
    0.01 and it is more to the left. *)
Definition beats (w c : Prediction) : Prop :=
  ((oneHundredth < confidenceGap w c)%Q
   /\ (confidence c < confidence w)%Q)
  \/ ((confidenceGap w c <= oneHundredth)%Q
      /\ (x (bbox w) < x (bbox c))%Q).

(** Two quantities whose confidences, 0.02 and 0.01, have the computed
    difference 0.01; the less confident one is more to the left. *)
Definition confident : Prediction :=
  det "Quantity" (mkBBox 50 0 0 0) (Js.double (2 # 100)) (Some "12").

Definition leftmost : Prediction :=
  det "Quantity" (mkBBox 10 0 0 0) (Js.double (1 # 100)) (Some "7").

(** Two quantities whose confidences, 0.91 and 0.90, have the computed
    difference 0.010000000000000009. *)
Definition slightlyAhead : Prediction :=
  det "Quantity" (mkBBox 50 0 0 0) (Js.double (91 # 100)) (Some "12").

Definition slightlyBehind : Prediction :=
  det "Quantity" (mkBBox 10 0 0 0) (Js.double (90 # 100)) (Some "7").

(** An anchor and a quantity whose extracted value is the empty string. *)
Definition emptyValue : list Prediction :=
  [ det "Med Name" (box 100 0) 1 None;
    det "Quantity" (box 102 0) 1 (Some "") ].

(** The five canonical class names of the field classifier, normalized:
    the patterns of the line-item fields. *)
Definition lineItemPatterns : list string :=
  map (fun kv => normalizeClassName (fst kv)) FIELD_MAPPING.

(** Three detections for the metadata scan. *)
Definition metaExample : list Prediction :=
  [ det "Customer Name" (box 500 0) (1 # 2) None;
    det "Patient" (box 520 0) (9 # 10) None;
    det "Amount Date" (box 540 0) (99 # 100) None ].

(** Two detections that both match the patterns of doctorName. *)
Definition doctorExample : list Prediction :=
  [ det "Doctor Name" (box 0 0) (9 # 10) None;
    det "Dr. Rao" (box 0 0) (8 # 10) None ].

(** An anchor, a quantity and a customer name. *)
Definition billExample : list RawPrediction :=
  [ mkRaw (Some "Med Name") 0 100 None None None None;
    mkRaw (Some "Quantity") 0 102 None None (Some (9 # 10)%Q) (Some "5");
    mkRaw (Some "Customer Name") 0 500 None None None (Some "Asha") ].

(** The body of the fallback loop on a detection that has a class. *)
Definition fallbackFill (row : Row) (p : Prediction) : Row :=
  match getFieldName (Js.orEmpty (class p)) with
  | Some f =>
      match getField f row with
      | None => setField f (class p) row
      | Some _ => row
      end
  | None => row
  end.

(** The detection is classified into the slot [f]. *)
Definition classifiedAs (f : FieldName) (p : Prediction) : bool :=
  match class p with
  | Some c =>
      match getFieldName c with
      | Some g => FieldName_eqb g f
      | None => false
      end
  | None => false
  end.

(** A quantity without extracted value. *)
Definition quantityOnly : Prediction := det "Quantity" (box 0 0) (9 # 10) None.

(** A label that contains [quantity], and [medname] not at its start. *)
Definition mednameInside : list RawPrediction :=
  [ mkRaw (Some "Quantity Medname") 0 0 None None None None ].

(** ** app/(tabs)/_layout.tsx: the rows handed to the bill form *)

(** The items built by [handleCapture] from [extractedData.medicines]. *)
Module Ocr.
Record Result : Type := mkResult {
  medicine_name : string;
  quantity : string;
  price_per_unit : string;
  hsn_code : string;
  batch_no : string;
  expiry_date : string;
  confidence : Q
}.
End Ocr.

(** [s || d] on a [string | null] field. *)
Definition orDefault (s : option string) (d : string) : string :=
  if Js.truthy s then Js.orEmpty s else d.

(** The function mapped over [extractedData.medicines]. *)
Definition toOcrResult (index : nat) (row : Row) : Ocr.Result :=
  Ocr.mkResult
    (orDefault (medName row) ("Item " ++ Js.numberToString (index + 1)))
    (orDefault (quantity row) "1")
    (orDefault (amount row) "0")
    (orDefault (hsnCode row) "")
    (orDefault (batchExp row) "")
    ""
    (8 # 10).

Definition toOcrResults (medicines : list Row) : list Ocr.Result :=
  map (fun ir => toOcrResult (fst ir) (snd ir)) (indexed medicines).

(** A normalized label, read from left to right: every whitespace is one
    space that stands between two other characters, and no ASCII capital
    occurs.  [afterSpace] tells that the previous character was a space or
    that the string starts here. *)
Fixpoint wellSpaced (afterSpace : bool) (s : string) : Prop :=
  match s with
  | EmptyString => afterSpace = false
  | String c s' =>
      if Js.isWhiteSpace c
      then c = " "%char /\ afterSpace = false /\ wellSpaced true s'
      else Js.toLowerChar c = c /\ wellSpaced false s'
  end.

Definition normalForm (s : string) : Prop := s = "" \/ wellSpaced true s.

(** The labels made of ASCII characters: on them the whitespace and the
    letters with case are those of [Js.isWhiteSpace] and [Js.toLowerChar]. *)
Fixpoint asciiOnly (s : string) : bool :=
  match s with
  | EmptyString => true
  | String c s' => (nat_of_ascii c <? 128)%nat && asciiOnly s'
  end.

(** * Properties *)

Local Open Scope list_scope.

(** ** Examples *)

Example normalize_example :
  normalizeClassName "  HSN    Code " = "hsn code".
Proof. reflexivity. Qed.

Example end_to_end_example :
  extractBillData
    [ mkRaw (Some "Med Name") 0%Q 100%Q None None None None;
      mkRaw (Some "Quantity") 0%Q 102%Q None None (Some (9 # 10)%Q) (Some "5");
      mkRaw (Some "Amount") 0%Q 98%Q None None (Some (9 # 10)%Q) (Some "120");
      mkRaw (Some "Customer Name") 0%Q 500%Q None None None (Some "Asha") ]
  = Ok (mkExtracted
          [ mkRow (Some "Medicine 1") None (Some "5") None (Some "120") ]
          (mkMetadata (Some "Customer Name") None None None None None)
          1).
Proof. vm_compute. reflexivity. Qed.

(** ** The sort *)

Section SortFacts.
Context {A : Type} (compareFn : A -> A -> Q).

Lemma insert_perm (a : A) (l : list A) :
  Permutation (Js.insert compareFn a l) (a :: l).
Proof.
  induction l as [|b l IH]; simpl.
  - apply Permutation_refl.
  - destruct (Qle_bool (compareFn a b) 0%Q).
    + apply Permutation_refl.
    + apply perm_trans with (b :: a :: l).
      * apply perm_skip, IH.
      * apply perm_swap.
Qed.

Lemma sort_perm (l : list A) : Permutation (Js.sort compareFn l) l.
Proof.
  induction l as [|a l IH]; simpl.
  - apply perm_nil.
  - apply perm_trans with (a :: Js.sort compareFn l).
    + apply insert_perm.
    + apply perm_skip, IH.
Qed.

Lemma sort_length (l : list A) :
  List.length (Js.sort compareFn l) = List.length l.
Proof. apply Permutation_length, sort_perm. Qed.

Lemma sort_in (a : A) (l : list A) : In a (Js.sort compareFn l) <-> In a l.
Proof.
  split; apply Permutation_in; [|apply Permutation_sym]; apply sort_perm.
Qed.

Lemma sort_not_nil (l : list A) : l <> [] -> Js.sort compareFn l <> [].
Proof.
  intros Hl Hs. apply Hl.
  apply length_zero_iff_nil. rewrite <- sort_length, Hs. reflexivity.
Qed.

(** When the comparator decides a total preorder [R], the result is
    sorted for [R]. *)
Section Consistent.
Variable R : A -> A -> Prop.
Hypothesis R_trans : forall a b c, R a b -> R b c -> R a c.
Hypothesis compare_le : forall a b, Qle_bool (compareFn a b) 0%Q = true -> R a b.
Hypothesis compare_gt : forall a b, Qle_bool (compareFn a b) 0%Q = false -> R b a.

Lemma insert_sorted (a : A) (l : list A) :
  StronglySorted R l -> StronglySorted R (Js.insert compareFn a l).
Proof.
  induction 1 as [|b l Hs IH Hb]; simpl.
  - constructor; constructor.
  - destruct (Qle_bool (compareFn a b) 0%Q) eqn:E.
    + constructor.
      * constructor; assumption.
      * constructor.
        -- apply compare_le, E.
        -- eapply Forall_impl; [|exact Hb].
           intros c Hc. eapply R_trans; [apply compare_le, E | exact Hc].
    + constructor; [exact IH|].
      apply Forall_forall. intros c Hc.
      apply (Permutation_in _ (insert_perm a l)) in Hc.
      destruct Hc as [<-|Hc].
      * apply compare_gt, E.
      * rewrite Forall_forall in Hb. apply Hb, Hc.
Qed.

Lemma sort_sorted (l : list A) : StronglySorted R (Js.sort compareFn l).
Proof.
  induction l as [|a l IH]; simpl.
  - constructor.
  - apply insert_sorted, IH.
Qed.
End Consistent.
End SortFacts.

(** ** Strings *)

Lemma prefix_app_l (p q s : string) :
  String.prefix (p ++ q) s = true -> String.prefix p s = true.
Proof.
  revert s. induction p as [|c p IH]; intros s H.
  - destruct s; reflexivity.
  - destruct s as [|d s]; simpl in *; [discriminate|].
    destruct (ascii_dec c d); [|discriminate].
    apply IH, H.
Qed.

Lemma includes_app_l (s p q : string) :
  Js.includes s (p ++ q) = true -> Js.includes s p = true.
Proof.
  induction s as [|c s IH]; cbn [Js.includes]; intros H.
  - rewrite orb_false_r in *. apply prefix_app_l with q, H.
  - apply orb_true_iff in H. apply orb_true_iff.
    destruct H as [H|H].
    + left. apply prefix_app_l with q, H.
    + right. apply IH, H.
Qed.

(** ** The error monad *)

Lemma mapM_ok {A B : Type} (f : A -> result B) (g : A -> B) (l : list A) :
  (forall a, In a l -> f a = Ok (g a)) -> mapM f l = Ok (map g l).
Proof.
  induction l as [|a l IH]; intros H; simpl.
  - reflexivity.
  - rewrite (H a (or_introl eq_refl)). simpl.
    rewrite IH by (intros b Hb; apply H; right; exact Hb).
    reflexivity.
Qed.

Lemma foldM_ok {A S : Type} (step : S -> A -> result S) (g : S -> A -> S)
  (l : list A) (acc : S) :
  (forall s a, In a l -> step s a = Ok (g s a)) ->
  foldM step l acc = Ok (fold_left g l acc).
Proof.
  revert acc. induction l as [|a l IH]; intros acc H; simpl.
  - reflexivity.
  - rewrite (H acc a (or_introl eq_refl)). simpl.
    apply IH. intros s b Hb. apply H. right. exact Hb.
Qed.

(** ** Filling the rows of the normal path *)

Lemma isNonAnchor_class (p : Prediction) :
  isNonAnchor p = true -> class p <> None.
Proof. unfold isNonAnchor. destruct (class p); [discriminate|discriminate]. Qed.

Lemma isAnchor_class (p : Prediction) :
  isAnchor p = true -> exists c, class p = Some c /\ isAnchorClass c = true.
Proof.
  unfold isAnchor. destruct (class p) as [c|]; [|discriminate].
  intros H. apply andb_true_iff in H. exists c. split; [reflexivity|apply H].
Qed.

Lemma fillRow_ok (row : Row) (assigned : list Prediction) :
  (forall p, In p assigned -> class p <> None) ->
  fillRow row assigned
  = Ok (fold_left (assignField (classify assigned)) fieldPriority row).
Proof.
  intros H. unfold fillRow, classify.
  rewrite (mapM_ok _ (fun p => (getFieldName (Js.orEmpty (class p)), p))).
  - reflexivity.
  - intros p Hp. specialize (H p Hp).
    destruct (class p); [reflexivity|contradiction].
Qed.

Lemma assignedTo_in (anchors nonAnchors : list Prediction) (i : nat) (p : Prediction) :
  In p (assignedTo anchors nonAnchors i) <->
  In p nonAnchors /\ findNearestAnchor p anchors = Some i.
Proof.
  unfold assignedTo. rewrite filter_In.
  split; intros [H1 H2]; split; try assumption.
  - destruct (findNearestAnchor p anchors) as [j|]; [|discriminate].
    apply Nat.eqb_eq in H2. congruence.
  - rewrite H2. apply Nat.eqb_refl.
Qed.

Lemma filledRows_ok (anchors predictions : list Prediction) :
  filledRows anchors (filter isNonAnchor predictions)
  = Ok (map (filledRow anchors (filter isNonAnchor predictions))
            (seq 0 (List.length anchors))).
Proof.
  unfold filledRows. apply mapM_ok. intros i _.
  apply fillRow_ok. intros p Hp.
  apply assignedTo_in in Hp. destruct Hp as [Hp _].
  apply filter_In in Hp. apply isNonAnchor_class, Hp.
Qed.

(** The normal path, as one equation. *)
Lemma groupByRowCaptain_normal (predictions : list Prediction) :
  filter isAnchor predictions <> [] ->
  groupByRowCaptain predictions
  = let anchors := Js.sort compareAnchors (filter isAnchor predictions) in
    Ok (Js.sort (compareRows anchors)
          (map (filledRow anchors (filter isNonAnchor predictions))
               (seq 0 (List.length anchors)))).
Proof.
  intros Ha. unfold groupByRowCaptain.
  destruct predictions as [|p ps]; [contradiction Ha; reflexivity|].
  destruct (filter isAnchor (p :: ps)) as [|a l] eqn:E; [contradiction Ha; reflexivity|].
  rewrite filledRows_ok. reflexivity.
Qed.

Lemma medName_assignField classified (row : Row) (f : FieldName) :
  medName (assignField classified row f) = medName row.
Proof.
  destruct f; simpl; try reflexivity;
    match goal with |- context [winner ?l] => destruct (winner l) end;
    reflexivity.
Qed.

Lemma medName_filledRow (anchors nonAnchors : list Prediction) (i : nat) :
  medName (filledRow anchors nonAnchors i) = Some (placeholderName i).
Proof.
  unfold filledRow, fieldPriority. cbn [fold_left].
  rewrite !medName_assignField. reflexivity.
Qed.

Lemma filter_filter_impl {A : Type} (f g : A -> bool) (l : list A) :
  (forall a, f a = true -> g a = true) -> filter f (filter g l) = filter f l.
Proof.
  intros H. induction l as [|a l IH]; simpl; [reflexivity|].
  destruct (g a) eqn:G; simpl.
  - rewrite IH. reflexivity.
  - destruct (f a) eqn:F; [|exact IH].
    rewrite (H a F) in G. discriminate.
Qed.

(** A comparator that never orders two elements of the array leaves the
    array as it is. *)
Lemma sort_unordered {A : Type} (compareFn : A -> A -> Q) (l : list A) :
  (forall a b, In a l -> In b l -> Qle_bool (compareFn a b) 0%Q = true) ->
  Js.sort compareFn l = l.
Proof.
  induction l as [|a l IH]; intros H; simpl; [reflexivity|].
  rewrite IH by (intros b c Hb Hc; apply H; right; assumption).
  destruct l as [|b l]; simpl; [reflexivity|].
  rewrite H; [reflexivity|left; reflexivity|right; left; reflexivity].
Qed.

(** ** Number and order of the rows *)

Lemma rows_count (predictions : list Prediction) :
  filter isAnchor predictions <> [] ->
  exists rows,
    groupByRowCaptain predictions = Ok rows
    /\ List.length rows = List.length (filter isAnchor predictions).
Proof.
  intros Ha. rewrite (groupByRowCaptain_normal _ Ha). cbv zeta.
  eexists. split; [reflexivity|].
  rewrite sort_length, length_map, length_seq, sort_length. reflexivity.
Qed.

(** The final sort looks an anchor up by comparing its class with the
    placeholder name of the row.  When no anchor is labelled like a
    placeholder, it finds none and the rows stay in the order of the sorted
    anchors. *)
Lemma rows_in_anchor_order (predictions : list Prediction) :
  filter isAnchor predictions <> [] ->
  (forall a i, In a predictions -> class a <> Some (placeholderName i)) ->
  let anchors := Js.sort compareAnchors (filter isAnchor predictions) in
  groupByRowCaptain predictions
  = Ok (map (filledRow anchors (filter isNonAnchor predictions))
            (seq 0 (List.length anchors))).
Proof.
  intros Ha Hlab anchors. rewrite (groupByRowCaptain_normal _ Ha). cbv zeta.
  fold anchors. f_equal. apply sort_unordered.
  intros a b Hin _. apply in_map_iff in Hin. destruct Hin as [i [<- _]].
  unfold compareRows. rewrite medName_filledRow.
  destruct (find _ anchors) as [anchor|] eqn:E; [|reflexivity].
  exfalso. apply find_some in E. destruct E as [Hin E].
  apply sort_in, filter_In in Hin. destruct Hin as [Hin _].
  apply (Hlab anchor i Hin).
  unfold Js.strictEq in E. destruct (class anchor) as [c|]; [|discriminate].
  apply String.eqb_eq in E. congruence.
Qed.

(** C1 (the code departs from the claim).  The claim: with at least one
    anchor, [groupByRowCaptain] returns one row per anchor, ordered
    ascending by the vertical center of the corresponding anchors.  On
    [swappedLabels] the sorted anchors are the one at y = 0 and then the one
    at y = 10, rows "Medicine 1" and "Medicine 2" are created in that order,
    and the final sort, which looks the anchors up by [class === medName],
    returns the row of the anchor at y = 10 before the row of the anchor at
    y = 0. *)
Theorem C1_rows_leave_anchor_order :
  Js.sort compareAnchors (filter isAnchor swappedLabels) = swappedLabels
  /\ map center swappedLabels
     = [getVerticalCenter (box 0 0); getVerticalCenter (box 10 0)]
  /\ (getVerticalCenter (box 0 0) < getVerticalCenter (box 10 0))%Q
  /\ filledRows swappedLabels (filter isNonAnchor swappedLabels)
     = Ok [newRow 0; newRow 1]
  /\ groupByRowCaptain swappedLabels = Ok [newRow 1; newRow 0].
Proof. repeat split; vm_compute; reflexivity. Qed.

(** ** The name of a row *)

(** Counterexample of C2: the row of the anchor receives a quantity with
    the extracted value "5" and a detection classified as medicine name
    with the extracted value "Dolo 650", the anchor itself carries the value
    "Crocin", and the name of the row is still the placeholder. *)
Lemma C2_placeholder_not_overwritten :
  let anchors := Js.sort compareAnchors (filter isAnchor namedDetections) in
  let nonAnchors := filter isNonAnchor namedDetections in
  map value (assignedTo anchors nonAnchors 0) = [Some "5"; Some "Dolo 650"]
  /\ map (fun p => getFieldName (Js.orEmpty (class p))) (assignedTo anchors nonAnchors 0)
     = [Some Quantity; Some MedName]
  /\ groupByRowCaptain namedDetections
     = Ok [mkRow (Some "Medicine 1") None (Some "5") None None].
Proof. repeat split; vm_compute; reflexivity. Qed.

(** C2 (amended).  In the normal case (at least one anchor) the row of the
    anchor at position [i] of the ascending vertical sort (counted from 0)
    is created with the placeholder name "Medicine i+1", and no detection
    assigned to the row ever overwrites it, whatever values the detections
    carry: every returned row is named by the placeholder of its anchor. *)
Theorem C2_medName_is_placeholder (predictions : list Prediction) :
  filter isAnchor predictions <> [] ->
  let anchors := Js.sort compareAnchors (filter isAnchor predictions) in
  let nonAnchors := filter isNonAnchor predictions in
  exists filled rows,
    filledRows anchors nonAnchors = Ok filled
    /\ groupByRowCaptain predictions = Ok rows
    /\ rows = Js.sort (compareRows anchors) filled
    /\ List.length filled = List.length (filter isAnchor predictions)
    /\ (forall i row, nth_error filled i = Some row ->
                      medName row = Some (placeholderName i))
    /\ (forall row, In row rows ->
          exists i, i < List.length (filter isAnchor predictions)
                    /\ nth_error filled i = Some row
                    /\ medName row = Some (placeholderName i)).
Proof.
  intros Ha anchors nonAnchors.
  set (filled := map (filledRow anchors nonAnchors) (seq 0 (List.length anchors))).
  assert (Hlen : List.length filled = List.length (filter isAnchor predictions)).
  { unfold filled, anchors. rewrite length_map, length_seq, sort_length. reflexivity. }
  assert (Hnth : forall i row, nth_error filled i = Some row ->
                               row = filledRow anchors nonAnchors i).
  { intros i row H. unfold filled in H.
    rewrite nth_error_map in H.
    destruct (nth_error (seq 0 (List.length anchors)) i) as [j|] eqn:E; [|discriminate].
    assert (Hi : i < List.length (seq 0 (List.length anchors))).
    { apply nth_error_Some. congruence. }
    rewrite length_seq in Hi.
    rewrite nth_error_nth' with (d := 0) in E by (rewrite length_seq; exact Hi).
    rewrite seq_nth in E by exact Hi. simpl in E, H. congruence. }
  exists filled, (Js.sort (compareRows anchors) filled).
  split; [apply filledRows_ok|].
  split; [rewrite (groupByRowCaptain_normal _ Ha); reflexivity|].
  split; [reflexivity|].
  split; [exact Hlen|].
  split.
  - intros i row H. rewrite (Hnth i row H). apply medName_filledRow.
  - intros row Hin. apply sort_in in Hin.
    apply In_nth_error in Hin. destruct Hin as [i Hi].
    exists i. split; [|split].
    + rewrite <- Hlen. apply nth_error_Some. congruence.
    + exact Hi.
    + rewrite (Hnth i row Hi). apply medName_filledRow.
Qed.

Lemma C2_medName_is_placeholder_witness :
  exists filled rows,
    filledRows (Js.sort compareAnchors (filter isAnchor namedDetections))
               (filter isNonAnchor namedDetections) = Ok filled
    /\ groupByRowCaptain namedDetections = Ok rows
    /\ rows = Js.sort (compareRows (Js.sort compareAnchors (filter isAnchor namedDetections))) filled
    /\ List.length filled = List.length (filter isAnchor namedDetections)
    /\ (forall i row, nth_error filled i = Some row ->
                      medName row = Some (placeholderName i))
    /\ (forall row, In row rows ->
          exists i, i < List.length (filter isAnchor namedDetections)
                    /\ nth_error filled i = Some row
                    /\ medName row = Some (placeholderName i)).
Proof.
  apply (C2_medName_is_placeholder namedDetections).
  vm_compute. discriminate.
Defined.

(** ** Detections without a class *)

Lemma groupByRowCaptain_empty : groupByRowCaptain [] = Ok [].
Proof. reflexivity. Qed.

(** With an anchor in the input, the detections whose class is missing or
    empty are skipped: the result is that of the input without them. *)
Lemma missing_class_skipped_normal (predictions : list Prediction) :
  filter isAnchor predictions <> [] ->
  groupByRowCaptain predictions
  = groupByRowCaptain (filter (fun p => Js.truthy (class p)) predictions).
Proof.
  intros Ha.
  assert (HA : filter isAnchor (filter (fun p => Js.truthy (class p)) predictions)
               = filter isAnchor predictions).
  { apply filter_filter_impl. intros p. unfold isAnchor.
    destruct (class p) as [c|]; [|discriminate].
    intros H. apply andb_true_iff in H. apply H. }
  assert (HN : filter isNonAnchor (filter (fun p => Js.truthy (class p)) predictions)
               = filter isNonAnchor predictions).
  { apply filter_filter_impl. intros p. unfold isNonAnchor.
    destruct (class p) as [c|]; [|discriminate].
    intros H. apply andb_true_iff in H. apply H. }
  rewrite (groupByRowCaptain_normal predictions Ha).
  rewrite groupByRowCaptain_normal by (rewrite HA; exact Ha).
  rewrite HA, HN. reflexivity.
Qed.

(** C3 (the code departs from the claim).  The claim: [groupByRowCaptain]
    never raises and a detection without class is skipped before the
    partition, so that it affects no row, the row of the zero-anchor path
    included.  The partition loop does skip it, but the loop of the
    zero-anchor path runs over the whole input and calls
    [getFieldName(prediction.class)] on it, where [className.trim()] raises
    a TypeError; [extractBillData] raises with it. *)
Theorem C3_missing_class_raises :
  filter isAnchor [unlabelled] = []
  /\ filter isNonAnchor [unlabelled] = []
  /\ groupByRowCaptain [unlabelled] = Throw TypeError
  /\ extractBillData [mkRaw None 0 0 None None None None] = Throw TypeError.
Proof. repeat split; vm_compute; reflexivity. Qed.

(** ** Double precision

    Rounding to the nearest double is monotone, odd and keeps the sign. *)

Lemma ltb_true (a b : Q) : Js.ltb a b = true <-> (a < b)%Q.
Proof.
  unfold Js.ltb. rewrite negb_true_iff. split.
  - intros H. apply Qnot_le_lt. intros Hle.
    apply Qle_bool_iff in Hle. congruence.
  - intros H. destruct (Qle_bool b a) eqn:E; [|reflexivity].
    apply Qle_bool_iff in E. exfalso. apply (Qlt_not_le _ _ H E).
Qed.

Lemma ltb_false (a b : Q) : Js.ltb a b = false <-> (b <= a)%Q.
Proof.
  unfold Js.ltb. rewrite negb_false_iff. apply Qle_bool_iff.
Qed.

Local Open Scope Z_scope.

Lemma roundHalfEven_bounds (x : Q) :
  Qfloor x <= Js.roundHalfEven x <= Qfloor x + 1.
Proof.
  unfold Js.roundHalfEven.
  destruct (Qcompare (x - inject_Z (Qfloor x)) (1 # 2)); [destruct (Z.even (Qfloor x))| |]; lia.
Qed.

Lemma roundHalfEven_mono (x y : Q) :
  (x <= y)%Q -> Js.roundHalfEven x <= Js.roundHalfEven y.
Proof.
  intros H. pose proof (Qfloor_resp_le x y H) as Hf.
  pose proof (roundHalfEven_bounds x) as Bx.
  pose proof (roundHalfEven_bounds y) as By.
  destruct (Z.eq_dec (Qfloor x) (Qfloor y)) as [E|E]; [|lia].
  unfold Js.roundHalfEven in *. rewrite <- E in *.
  destruct (Qcompare_spec (x - inject_Z (Qfloor x)) (1 # 2)) as [Hx|Hx|Hx];
    destruct (Qcompare_spec (y - inject_Z (Qfloor x)) (1 # 2)) as [Hy|Hy|Hy];
    try lia; try (destruct (Z.even (Qfloor x)); lia); exfalso; lra.
Qed.

Lemma roundHalfEven_le_int (x : Q) (n : Z) :
  (x <= inject_Z n)%Q -> Js.roundHalfEven x <= n.
Proof.
  intros H. pose proof (Qfloor_resp_le _ _ H) as Hf. rewrite Qfloor_Z in Hf.
  pose proof (roundHalfEven_bounds x) as B.
  destruct (Z.eq_dec (Qfloor x) n) as [E|E]; [|lia].
  unfold Js.roundHalfEven. pose proof (Qfloor_le x) as Hl. rewrite E in *.
  destruct (Qcompare_spec (x - inject_Z n) (1 # 2)) as [Hx|Hx|Hx];
    try lia; exfalso; lra.
Qed.

Lemma roundHalfEven_ge_int (x : Q) (n : Z) :
  (inject_Z n <= x)%Q -> n <= Js.roundHalfEven x.
Proof.
  intros H. pose proof (Qfloor_resp_le _ _ H) as Hf. rewrite Qfloor_Z in Hf.
  pose proof (roundHalfEven_bounds x) as B. lia.
Qed.

Lemma inject_Z_pow_pos (k : Z) : 0 <= k -> (0 < inject_Z (2 ^ k))%Q.
Proof.
  intros H. change 0%Q with (inject_Z 0). rewrite <- Zlt_Qlt.
  apply Z.pow_pos_nonneg; lia.
Qed.

Lemma roundScaled_mono (s t : Q) :
  (0 <= s)%Q -> (s <= t)%Q -> Js.roundScaled s <= Js.roundScaled t.
Proof.
  intros Hs Hst. unfold Js.roundScaled.
  assert (Hfs : 0 <= Qfloor s).
  { change 0 with (Qfloor (inject_Z 0)) at 1. rewrite <- (Qfloor_Z 0). apply Qfloor_resp_le. exact Hs. }
  pose proof (Qfloor_resp_le _ _ Hst) as Hf.
  pose proof (Z.log2_le_mono _ _ Hf) as Hl.
  set (k := Z.max 0 (Z.log2 (Qfloor s) - 52)).
  set (l := Z.max 0 (Z.log2 (Qfloor t) - 52)).
  assert (Hk : 0 <= k) by lia. assert (Hlk : k <= l) by lia.
  destruct (Z.eq_dec k l) as [E|E].
  - rewrite <- E. apply Z.mul_le_mono_nonneg_r; [apply Z.pow_nonneg; lia|].
    apply roundHalfEven_mono.
    apply Qmult_le_compat_r; [exact Hst|].
    apply Qlt_le_weak, Qinv_lt_0_compat, inject_Z_pow_pos, Hk.
  - assert (Hl2 : l = Z.log2 (Qfloor t) - 52) by lia.
    assert (Hl0 : 0 < l) by lia.
    (* upper bound for s *)
    assert (Hup : Js.roundHalfEven (s / inject_Z (2 ^ k)) <= 2 ^ 53).
    { apply roundHalfEven_le_int.
      apply Qle_shift_div_r; [apply inject_Z_pow_pos, Hk|].
      rewrite <- inject_Z_mult, <- Z.pow_add_r by lia.
      apply Qlt_le_weak. apply Qlt_le_trans with (inject_Z (Qfloor s + 1)); [apply Qlt_floor|].
      rewrite <- Zle_Qle.
      assert (Qfloor s < 2 ^ (53 + k)); [|lia].
      destruct (Z.eq_dec (Qfloor s) 0) as [Z0|Z0].
      - rewrite Z0. apply Z.pow_pos_nonneg; lia.
      - assert (Hp : 0 < Qfloor s) by lia.
        destruct (Z.log2_spec _ Hp) as [_ Hlt].
        apply Z.lt_le_trans with (1 := Hlt).
        apply Z.pow_le_mono_r; lia. }
    assert (Hlow : 2 ^ 52 <= Js.roundHalfEven (t / inject_Z (2 ^ l))).
    { apply roundHalfEven_ge_int.
      apply Qle_shift_div_l; [apply inject_Z_pow_pos; lia|].
      rewrite <- inject_Z_mult, <- Z.pow_add_r by lia.
      apply Qle_trans with (inject_Z (Qfloor t)); [|apply Qfloor_le].
      rewrite <- Zle_Qle.
      assert (Hp : 0 < Qfloor t).
      { destruct (Z.le_gt_cases (Qfloor t) 0) as [Hn|Hn]; [|exact Hn].
        rewrite (Z.log2_nonpos _ Hn) in Hl2. lia. }
      apply Z.log2_le_pow2; [exact Hp|lia]. }
    apply Z.le_trans with (2 ^ 53 * 2 ^ k).
    + apply Z.mul_le_mono_nonneg_r; [apply Z.pow_nonneg; lia|exact Hup].
    + apply Z.le_trans with (2 ^ 52 * 2 ^ l).
      * rewrite <- !Z.pow_add_r by lia. apply Z.pow_le_mono_r; lia.
      * apply Z.mul_le_mono_nonneg_r; [apply Z.pow_nonneg; lia|exact Hlow].
Qed.

Lemma roundScaled_nonneg (s : Q) : (0 <= s)%Q -> 0 <= Js.roundScaled s.
Proof.
  intros Hs. unfold Js.roundScaled.
  set (k := Z.max 0 (Z.log2 (Qfloor s) - 52)).
  assert (Hk : 0 <= k) by lia.
  apply Z.mul_nonneg_nonneg; [|apply Z.pow_nonneg; lia].
  apply (roundHalfEven_ge_int _ 0).
  apply Qle_shift_div_l; [apply inject_Z_pow_pos, Hk|].
  change (inject_Z 0) with 0%Q. lra.
Qed.

Local Close Scope Z_scope.

Lemma roundPos_mono (p q : Q) :
  (0 <= p)%Q -> (p <= q)%Q -> (Js.roundPos p <= Js.roundPos q)%Q.
Proof.
  intros Hp Hpq. unfold Js.roundPos. rewrite !Qred_correct.
  unfold Qle. simpl. apply Z.mul_le_mono_nonneg_r; [lia|].
  apply roundScaled_mono.
  - apply Qmult_le_0_compat; [exact Hp|]. unfold Qle; simpl; lia.
  - apply Qmult_le_compat_r; [exact Hpq|]. unfold Qle; simpl; lia.
Qed.

Lemma roundPos_nonneg (q : Q) : (0 <= q)%Q -> (0 <= Js.roundPos q)%Q.
Proof.
  intros H. unfold Js.roundPos. rewrite Qred_correct.
  unfold Qle. simpl. rewrite Z.mul_1_r.
  apply roundScaled_nonneg. apply Qmult_le_0_compat; [exact H|].
  unfold Qle; simpl; lia.
Qed.

Lemma double_comp (p q : Q) : (p == q)%Q -> Js.double p = Js.double q.
Proof. intros H. unfold Js.double. rewrite (Qred_complete _ _ H). reflexivity. Qed.

Lemma double_nonneg (q : Q) : (0 <= q)%Q -> (0 <= Js.double q)%Q.
Proof.
  intros H. unfold Js.double.
  assert (Hr : (0 <= Qred q)%Q) by (rewrite Qred_correct; exact H).
  destruct (Js.ltb (Qred q) 0) eqn:E.
  - apply ltb_true in E. lra.
  - apply roundPos_nonneg, Hr.
Qed.

Lemma double_nonpos (q : Q) : (q <= 0)%Q -> (Js.double q <= 0)%Q.
Proof.
  intros H. unfold Js.double.
  assert (Hr : (Qred q <= 0)%Q) by (rewrite Qred_correct; exact H).
  destruct (Js.ltb (Qred q) 0) eqn:E.
  - apply ltb_true in E.
    assert (0 <= Js.roundPos (- Qred q))%Q by (apply roundPos_nonneg; lra). lra.
  - apply ltb_false in E.
    assert (Hz : (q == 0)%Q) by (rewrite <- (Qred_correct q); lra).
    rewrite (Qred_complete _ _ Hz). vm_compute. discriminate.
Qed.

Lemma double_mono (p q : Q) : (p <= q)%Q -> (Js.double p <= Js.double q)%Q.
Proof.
  intros H. unfold Js.double.
  assert (Hr : (Qred p <= Qred q)%Q) by (rewrite !Qred_correct; exact H).
  destruct (Js.ltb (Qred p) 0) eqn:Ep; destruct (Js.ltb (Qred q) 0) eqn:Eq.
  - apply ltb_true in Ep, Eq.
    assert (Js.roundPos (- Qred q) <= Js.roundPos (- Qred p))%Q
      by (apply roundPos_mono; lra). lra.
  - apply ltb_true in Ep. apply ltb_false in Eq.
    assert (0 <= Js.roundPos (- Qred p))%Q by (apply roundPos_nonneg; lra).
    assert (0 <= Js.roundPos (Qred q))%Q by (apply roundPos_nonneg; lra). lra.
  - apply ltb_false in Ep. apply ltb_true in Eq. lra.
  - apply ltb_false in Ep. apply roundPos_mono; assumption.
Qed.

Lemma Qopp_opp_eq (q : Q) : Qopp (Qopp q) = q.
Proof. destruct q as [n d]. unfold Qopp. simpl. rewrite Z.opp_involutive. reflexivity. Qed.

Lemma double_opp (q : Q) : (Js.double (- q) == - Js.double q)%Q.
Proof.
  unfold Js.double. rewrite Qred_opp.
  destruct (Js.ltb (Qred q) 0) eqn:E.
  - apply ltb_true in E.
    assert (Js.ltb (- Qred q) 0 = false) as -> by (apply ltb_false; lra).
    rewrite Qopp_opp_eq. reflexivity. 
  - apply ltb_false in E.
    destruct (Js.ltb (- Qred q) 0) eqn:F.
    + rewrite Qopp_opp_eq. reflexivity.
    + apply ltb_false in F.
      assert (Hz : (q == 0)%Q) by (rewrite <- (Qred_correct q); lra).
      rewrite (Qred_complete _ _ Hz). vm_compute. reflexivity.
Qed.

Example double_examples :
  Js.double (1 # 10) = (3602879701896397 # 36028797018963968)%Q
  /\ Js.add (Js.double (1 # 10)) (Js.double (2 # 10))
     = (1351079888211149 # 4503599627370496)%Q
  /\ Js.double 5 = 5%Q
  /\ Js.double (-5) = (-5)%Q
  /\ Js.double (1 # 3) = (6004799503160661 # 18014398509481984)%Q.
Proof. vm_compute. repeat split; reflexivity. Qed.

(** ** The nearest anchor *)

Lemma combine_seq_snoc {A : Type} (l : list A) (c : A) (s : nat) :
  combine (seq s (List.length (l ++ [c]))) (l ++ [c])
  = combine (seq s (List.length l)) l ++ [(s + List.length l, c)].
Proof.
  revert s. induction l as [|a l IH]; intros s; simpl.
  - rewrite Nat.add_0_r. reflexivity.
  - rewrite IH. rewrite Nat.add_succ_r. reflexivity.
Qed.

Lemma indexed_snoc {A : Type} (l : list A) (c : A) :
  indexed (l ++ [c]) = indexed l ++ [(List.length l, c)].
Proof. unfold indexed. rewrite combine_seq_snoc. reflexivity. Qed.

Lemma nearestAfter_snoc (p : Prediction) (l : list Prediction) (c : Prediction) :
  nearestAfter p (l ++ [c])
  = nearestStep (getVerticalCenter (bbox p)) (nearestAfter p l) (List.length l, c).
Proof.
  unfold nearestAfter. rewrite indexed_snoc, fold_left_app. reflexivity.
Qed.

(** After at least one anchor the three variables describe one anchor of
    the array: its index, its distance and its center. *)
Lemma nearestAfter_state (p : Prediction) (l : list Prediction) :
  l <> [] ->
  exists i a,
    nth_error l i = Some a
    /\ nearestAfter p l
       = mkNearest (Some i) (Some (distanceTo p a)) (Some (center a)).
Proof.
  induction l as [|c l IH] using rev_ind; intros Hl; [contradiction Hl; reflexivity|].
  rewrite nearestAfter_snoc.
  destruct l as [|b l'].
  - exists 0, c. split; reflexivity.
  - destruct IH as [i [a [Hi Hst]]]; [discriminate|].
    rewrite Hst. unfold nearestStep. cbn [minDistance nearestAnchorY fst snd].
    assert (Hold : exists i0 a0, nth_error ((b :: l') ++ [c]) i0 = Some a0
              /\ mkNearest (Some i) (Some (distanceTo p a)) (Some (center a))
                 = mkNearest (Some i0) (Some (distanceTo p a0)) (Some (center a0))).
    { exists i, a. split; [|reflexivity].
      rewrite nth_error_app1; [exact Hi|].
      apply nth_error_Some. congruence. }
    assert (Hnew : exists i0 a0, nth_error ((b :: l') ++ [c]) i0 = Some a0
              /\ mkNearest (Some (List.length (b :: l')))
                   (Some (Qabs (Js.sub (getVerticalCenter (bbox p))
                                       (getVerticalCenter (bbox c)))))
                   (Some (getVerticalCenter (bbox c)))
                 = mkNearest (Some i0) (Some (distanceTo p a0)) (Some (center a0))).
    { exists (List.length (b :: l')), c. split; [|reflexivity].
      rewrite nth_error_app2 by apply Nat.le_refl.
      rewrite Nat.sub_diag. reflexivity. }
    destruct (withinTieWindow _ _); [destruct (Js.ltInf _ _)|destruct (Js.ltInf _ _)];
      assumption.
Qed.

Lemma findNearestAnchor_single (p a : Prediction) :
  findNearestAnchor p [a] = Some 0.
Proof. reflexivity. Qed.

(** One more anchor [c] after the anchors [l], whose current best is [a]. *)
Lemma findNearestAnchor_snoc (p : Prediction) (l : list Prediction)
  (c : Prediction) (i : nat) (a : Prediction) :
  findNearestAnchor p l = Some i ->
  nth_error l i = Some a ->
  findNearestAnchor p (l ++ [c])
  = Some (if Js.ltb (Qabs (Js.sub (distanceTo p c) (distanceTo p a))) 5
          then if Js.ltb (center c) (center a) then List.length l else i
          else if Js.ltb (distanceTo p c) (distanceTo p a) then List.length l else i).
Proof.
  intros Hf Hi.
  assert (Hl : l <> []) by (intros ->; destruct i; discriminate).
  destruct (nearestAfter_state p l Hl) as [i' [a' [Hi' Hst]]].
  assert (i' = i).
  { unfold findNearestAnchor in Hf. fold (nearestAfter p l) in Hf.
    rewrite Hst in Hf. simpl in Hf. congruence. }
  subst i'. assert (a' = a) by congruence. subst a'.
  unfold findNearestAnchor. fold (nearestAfter p (l ++ [c])).
  rewrite nearestAfter_snoc, Hst. unfold nearestStep.
  cbn [minDistance nearestAnchorY fst snd withinTieWindow Js.ltInf].
  fold (center p) (center c). fold (distanceTo p c).
  destruct (Js.ltb (Qabs (Js.sub (distanceTo p c) (distanceTo p a))) 5);
    [destruct (Js.ltb (center c) (center a))
    |destruct (Js.ltb (distanceTo p c) (distanceTo p a))]; reflexivity.
Qed.

Lemma StronglySorted_snoc {A : Type} (R : A -> A -> Prop) (l : list A) (c : A) :
  StronglySorted R (l ++ [c]) -> StronglySorted R l /\ Forall (fun a => R a c) l.
Proof.
  induction l as [|a l IH]; simpl; intros H.
  - split; constructor.
  - inversion H as [|? ? Hs Hall]; subst.
    destruct (IH Hs) as [Hs' Hc]. split.
    + constructor; [exact Hs'|].
      apply Forall_forall. intros b Hb. rewrite Forall_forall in Hall.
      apply Hall. apply in_or_app. left. exact Hb.
    + constructor; [|exact Hc].
      rewrite Forall_forall in Hall. apply Hall.
      apply in_or_app. right. left. reflexivity.
Qed.

Lemma double_five : Js.double 5 = 5%Q /\ Js.double (-5) = (-5)%Q.
Proof. vm_compute. split; reflexivity. Qed.

(** Two distances inside the computed window differ by less than 5. *)
Lemma window_bound (d m : Q) :
  Js.ltb (Qabs (Js.sub d m)) 5 = true -> (m < d + 5)%Q /\ (d < m + 5)%Q.
Proof.
  intros H. apply ltb_true in H. unfold Js.sub in H.
  destruct double_five as [H5 Hm5]. split.
  - destruct (Qlt_le_dec m (d + 5)) as [Hlt|Hge]; [exact Hlt|exfalso].
    assert (Hle : (d - m <= -5)%Q) by lra.
    apply double_mono in Hle. rewrite Hm5 in Hle.
    revert H. apply Qabs_case; intros; lra.
  - destruct (Qlt_le_dec d (m + 5)) as [Hlt|Hge]; [exact Hlt|exfalso].
    assert (Hle : (5 <= d - m)%Q) by lra.
    apply double_mono in Hle. rewrite H5 in Hle.
    revert H. apply Qabs_case; intros; lra.
Qed.

(** A distance that is smaller than the best and outside its window: every
    distance below it is outside the window as well. *)
Lemma outside_window (d m b : Q) :
  Js.ltb (Qabs (Js.sub d m)) 5 = false -> (d < m)%Q -> (b <= d)%Q ->
  Js.ltb (Qabs (Js.sub b m)) 5 = false.
Proof.
  intros H Hdm Hbd. apply ltb_false in H. apply ltb_false. unfold Js.sub in *.
  assert (Hd : (Js.double (d - m) <= 0)%Q) by (apply double_nonpos; lra).
  assert (Hb : (Js.double (b - m) <= Js.double (d - m))%Q) by (apply double_mono; lra).
  revert H. apply Qabs_case; intros; apply Qabs_case; intros; lra.
Qed.

(** Anchors sorted from top to bottom: the chosen anchor is strictly nearer
    than every anchor above it; an anchor below it is inside its window of
    5 or not nearer, so that no anchor below it is nearer by 5 or more. *)
Lemma nearest_in_sorted (p : Prediction) (l : list Prediction) :
  l <> [] ->
  StronglySorted (fun a b => (center a <= center b)%Q) l ->
  exists i a,
    nth_error l i = Some a
    /\ findNearestAnchor p l = Some i
    /\ (forall j b, nth_error l j = Some b ->
          (j < i -> (distanceTo p a < distanceTo p b)%Q)
          /\ (i < j -> (center a <= center b)%Q
                       /\ (Js.ltb (Qabs (Js.sub (distanceTo p b) (distanceTo p a))) 5
                           = true
                           \/ (distanceTo p a <= distanceTo p b)%Q)
                       /\ (distanceTo p a < distanceTo p b + 5)%Q)).
Proof.
  induction l as [|c l IH] using rev_ind; intros Hl Hs; [contradiction Hl; reflexivity|].
  apply StronglySorted_snoc in Hs. destruct Hs as [Hs Hc].
  destruct l as [|b0 l'].
  - exists 0, c. split; [reflexivity|]. split; [reflexivity|].
    intros j b Hj. split; intros Hlt; [lia|].
    destruct j; [lia|]. destruct j; discriminate.
  - set (l := b0 :: l') in *.
    destruct IH as [i [a [Hi [Hf Hall]]]]; [discriminate|exact Hs|].
    assert (Hil : i < List.length l) by (apply nth_error_Some; congruence).
    assert (Hac : (center a <= center c)%Q).
    { rewrite Forall_forall in Hc. apply Hc. eapply nth_error_In, Hi. }
    rewrite (findNearestAnchor_snoc p l c i a Hf Hi).
    assert (Hnth : forall j b, nth_error (l ++ [c]) j = Some b ->
              (j < List.length l /\ nth_error l j = Some b)
              \/ (j = List.length l /\ b = c)).
    { intros j b Hj. destruct (Nat.lt_ge_cases j (List.length l)) as [Hlt|Hge].
      - left. rewrite nth_error_app1 in Hj by exact Hlt. split; assumption.
      - right. rewrite nth_error_app2 in Hj by exact Hge.
        destruct (j - List.length l) as [|k] eqn:E.
        + simpl in Hj. split; [lia|congruence].
        + destruct k; discriminate. }
    destruct (Js.ltb (Qabs (Js.sub (distanceTo p c) (distanceTo p a))) 5) eqn:Ewin.
    + (* within the window: [c] is not above [a], the best is kept *)
      assert (Js.ltb (center c) (center a) = false) as -> by (apply ltb_false; exact Hac).
      exists i, a. split; [rewrite nth_error_app1; assumption|].
      split; [reflexivity|].
      intros j b Hj. destruct (Hnth j b Hj) as [[Hlt Hj']|[-> ->]].
      * apply Hall, Hj'.
      * split; [lia|]. intros _. split; [exact Hac|].
        split; [left; exact Ewin|]. apply (window_bound _ _ Ewin).
    + destruct (Js.ltb (distanceTo p c) (distanceTo p a)) eqn:Elt.
      * (* nearer and outside the window: [c] is taken *)
        apply ltb_true in Elt.
        exists (List.length l), c.
        split; [rewrite nth_error_app2, Nat.sub_diag by apply Nat.le_refl; reflexivity|].
        split; [reflexivity|].
        intros j b Hj. destruct (Hnth j b Hj) as [[Hlt Hj']|[-> ->]].
        -- split; [intros _|lia].
           destruct (Hall j b Hj') as [Habove Hbelow].
           destruct (Nat.lt_trichotomy j i) as [Hji|[->|Hij]].
           ++ specialize (Habove Hji). lra.
           ++ assert (b = a) by congruence. subst b. exact Elt.
           ++ destruct (Hbelow Hij) as [_ [[Hw|Hle] _]]; [|lra].
              destruct (Qlt_le_dec (distanceTo p c) (distanceTo p b)) as [Hlt'|Hge];
                [exact Hlt'|exfalso].
              rewrite (outside_window _ _ _ Ewin Elt Hge) in Hw. discriminate.
        -- split; lia.
      * apply ltb_false in Elt.
        exists i, a. split; [rewrite nth_error_app1; assumption|].
        split; [reflexivity|].
        intros j b Hj. destruct (Hnth j b Hj) as [[Hlt Hj']|[-> ->]].
        -- apply Hall, Hj'.
        -- split; [lia|]. intros _. split; [exact Hac|].
           split; [right; exact Elt|lra].
Qed.

Lemma sorted_anchors (l : list Prediction) :
  StronglySorted (fun a b => (center a <= center b)%Q) (Js.sort compareAnchors l).
Proof.
  apply sort_sorted.
  - intros a b c Hab Hbc. eapply Qle_trans; eassumption.
  - intros a b H. apply Qle_bool_iff in H.
    unfold compareAnchors, center in *. lra.
  - intros a b H. unfold compareAnchors, center in *.
    destruct (Qlt_le_dec (getVerticalCenter (bbox b)) (getVerticalCenter (bbox a)))
      as [Hlt|Hle].
    + apply Qlt_le_weak, Hlt.
    + assert (Qle_bool (getVerticalCenter (bbox a) - getVerticalCenter (bbox b)) 0 = true)
        by (apply Qle_bool_iff; lra).
      congruence.
Qed.

(** The center of a box is [y + height / 2], and the window of 5 is tested
    on the rounded difference of the rounded distances. *)
Example centers_and_window :
  map center tallTieExample = [100; 106; 103]%Q
  /\ map center tallFarExample = [100; 140; 139]%Q
  /\ getVerticalCenter (mkBBox 3 7 100 5) = (19 # 2)%Q
  /\ map (distanceTo (det "Quantity" (box (Js.double (1051 # 10)) 0) 1 None))
         (filter isAnchor roundedWindowExample)
     = [ Js.double (5099999999999994 # 1000000000000000);
         Js.double (10000000000000853 # 100000000000000000) ]%Q
  /\ findNearestAnchor (det "Quantity" (box (Js.double (1051 # 10)) 0) 1 None)
                       (filter isAnchor roundedWindowExample) = Some 0.
Proof. vm_compute. repeat split; reflexivity. Qed.

(** C4.  Every non-anchor detection is assigned to one anchor, found by
    scanning the anchors from top to bottom with the distances between
    vertical centers ([y + height / 2]): the first anchor is the first
    best; a further anchor whose distance is within 5 of the distance of
    the current best (the difference as computed in double precision)
    replaces it only if its vertical center is smaller, and otherwise
    replaces it only if it is nearer.  Hence the chosen anchor is strictly
    nearer than every anchor above it and no anchor below it is nearer by 5
    or more.  With anchors at the centers 100 and 106 and a quantity at 103
    (distances 3 and 3) the anchor at 100 is chosen, for boxes without and
    with a height; a detection whose center is near the second anchor goes
    to the second row. *)
Theorem C4_nearest_anchor_with_tie_window :
  (forall p a, findNearestAnchor p [a] = Some 0)
  /\ (forall p l c i a,
        findNearestAnchor p l = Some i ->
        nth_error l i = Some a ->
        findNearestAnchor p (l ++ [c])
        = Some (if Js.ltb (Qabs (Js.sub (distanceTo p c) (distanceTo p a))) 5
                then if Js.ltb (center c) (center a) then List.length l else i
                else if Js.ltb (distanceTo p c) (distanceTo p a)
                     then List.length l else i))
  /\ (forall predictions p,
        filter isAnchor predictions <> [] ->
        In p (filter isNonAnchor predictions) ->
        let anchors := Js.sort compareAnchors (filter isAnchor predictions) in
        let nonAnchors := filter isNonAnchor predictions in
        exists i a,
          nth_error anchors i = Some a
          /\ findNearestAnchor p anchors = Some i
          /\ (forall j, In p (assignedTo anchors nonAnchors j) <-> j = i)
          /\ (forall j b, nth_error anchors j = Some b ->
                (j < i -> (distanceTo p a < distanceTo p b)%Q)
                /\ (i < j -> (center a <= center b)%Q
                             /\ (Js.ltb (Qabs (Js.sub (distanceTo p b)
                                                      (distanceTo p a))) 5 = true
                                 \/ (distanceTo p a <= distanceTo p b)%Q)
                             /\ (distanceTo p a < distanceTo p b + 5)%Q)))
  /\ (forall q a1 a2,
        (center q == 103)%Q -> (center a1 == 100)%Q -> (center a2 == 106)%Q ->
        findNearestAnchor q [a1; a2] = Some 0)
  /\ groupByRowCaptain tieExample
     = Ok [ mkRow (Some "Medicine 1") None (Some "1") None None;
            mkRow (Some "Medicine 2") None None None None ]
  /\ (map center tallTieExample = [100; 106; 103]%Q
      /\ groupByRowCaptain tallTieExample
         = Ok [ mkRow (Some "Medicine 1") None (Some "1") None None;
                mkRow (Some "Medicine 2") None None None None ])
  /\ (map center tallFarExample = [100; 140; 139]%Q
      /\ groupByRowCaptain tallFarExample
         = Ok [ mkRow (Some "Medicine 1") None None None None;
                mkRow (Some "Medicine 2") None None None (Some "0") ])
  /\ groupByRowCaptain roundedWindowExample
     = Ok [ mkRow (Some "Medicine 1") None (Some "1") None None;
            mkRow (Some "Medicine 2") None None None None ].
Proof.
  split; [intros; apply findNearestAnchor_single|].
  split; [intros; apply findNearestAnchor_snoc; assumption|].
  split; [|split].
  - intros predictions p Ha Hp anchors nonAnchors.
    destruct (nearest_in_sorted p anchors) as [i [a [Hi [Hf Hall]]]].
    + apply sort_not_nil, Ha.
    + apply sorted_anchors.
    + exists i, a. split; [exact Hi|]. split; [exact Hf|]. split; [|exact Hall].
      intros j. rewrite assignedTo_in. split.
      * intros [_ H]. congruence.
      * intros ->. split; assumption.
  - intros q a1 a2 Hq H1 H2.
    change [a1; a2] with ([a1] ++ [a2]).
    rewrite (findNearestAnchor_snoc q [a1] a2 0 a1 eq_refl eq_refl).
    assert (Js.ltb (Qabs (Js.sub (distanceTo q a2) (distanceTo q a1))) 5 = true) as ->.
    { unfold distanceTo, Js.sub.
      rewrite (double_comp (center q - center a2) (103 - 106))
        by (rewrite Hq, H2; reflexivity).
      rewrite (double_comp (center q - center a1) (103 - 100))
        by (rewrite Hq, H1; reflexivity).
      vm_compute. reflexivity. }
    assert (Js.ltb (center a2) (center a1) = false) as ->.
    { apply ltb_false. rewrite H1, H2. discriminate. }
    reflexivity.
  - vm_compute. repeat split; reflexivity.
Qed.

Lemma C4_nearest_anchor_with_tie_window_witness :
  exists i a,
    nth_error (Js.sort compareAnchors (filter isAnchor tallTieExample)) i = Some a
    /\ findNearestAnchor (det "Quantity" (box 101 4) 1 None)
         (Js.sort compareAnchors (filter isAnchor tallTieExample)) = Some i
    /\ (forall j, In (det "Quantity" (box 101 4) 1 None)
                     (assignedTo (Js.sort compareAnchors (filter isAnchor tallTieExample))
                                 (filter isNonAnchor tallTieExample) j) <-> j = i)
    /\ (forall j b,
          nth_error (Js.sort compareAnchors (filter isAnchor tallTieExample)) j = Some b ->
          (j < i -> (distanceTo (det "Quantity" (box 101 4) 1 None) a
                     < distanceTo (det "Quantity" (box 101 4) 1 None) b)%Q)
          /\ (i < j -> (center a <= center b)%Q
                       /\ (Js.ltb (Qabs (Js.sub
                                     (distanceTo (det "Quantity" (box 101 4) 1 None) b)
                                     (distanceTo (det "Quantity" (box 101 4) 1 None) a)))
                                  5 = true
                           \/ (distanceTo (det "Quantity" (box 101 4) 1 None) a
                               <= distanceTo (det "Quantity" (box 101 4) 1 None) b)%Q)
                       /\ (distanceTo (det "Quantity" (box 101 4) 1 None) a
                           < distanceTo (det "Quantity" (box 101 4) 1 None) b + 5)%Q)).
Proof.
  destruct C4_nearest_anchor_with_tie_window as [_ [_ [H _]]].
  apply (H tallTieExample (det "Quantity" (box 101 4) 1 None)).
  - vm_compute. discriminate.
  - vm_compute. left. reflexivity.
Defined.

(** ** The winner of a slot *)

Lemma double_abs (q : Q) : (Qabs (Js.double q) == Js.double (Qabs q))%Q.
Proof.
  destruct (Qlt_le_dec q 0) as [Hneg|Hpos].
  - assert (Hd : (Js.double q <= 0)%Q) by (apply double_nonpos; lra).
    rewrite (Qabs_neg _ Hd).
    rewrite (double_comp (Qabs q) (- q)) by (apply Qabs_neg; lra).
    rewrite double_opp. reflexivity.
  - rewrite (Qabs_pos _ (double_nonneg _ Hpos)).
    rewrite (double_comp (Qabs q) q) by (apply Qabs_pos; exact Hpos).
    reflexivity.
Qed.

Lemma sub_abs_sym (u v : Q) : (Qabs (Js.sub u v) == Qabs (Js.sub v u))%Q.
Proof.
  unfold Js.sub. rewrite !double_abs.
  rewrite (Qabs_Qminus u v). reflexivity.
Qed.

Lemma oneHundredth_pos : (0 < Js.double (1 # 100))%Q.
Proof. vm_compute. reflexivity. Qed.

Lemma beats_first (w c : Prediction) :
  beats w c -> Qle_bool (compareCandidates w c) 0 = true.
Proof.
  intros H. apply Qle_bool_iff. unfold compareCandidates. cbv zeta.
  unfold beats, confidenceGap, oneHundredth in H.
  destruct (Js.ltb (Js.double (1 # 100))
                   (Qabs (Js.sub (confidence c) (confidence w)))) eqn:E.
  - apply ltb_true in E. destruct H as [[H1 H2]|[H1 H2]].
    + apply double_nonpos. lra.
    + exfalso. lra.
  - apply ltb_false in E. destruct H as [[H1 H2]|[H1 H2]].
    + exfalso. lra.
    + lra.
Qed.

Lemma beats_second (w c : Prediction) :
  beats w c -> Qle_bool (compareCandidates c w) 0 = false.
Proof.
  intros H. destruct (Qle_bool (compareCandidates c w) 0) eqn:F; [|reflexivity].
  exfalso. apply Qle_bool_iff in F. unfold compareCandidates in F. cbv zeta in F.
  pose proof (sub_abs_sym (confidence w) (confidence c)) as Hs.
  pose proof oneHundredth_pos as Hpos.
  unfold beats, confidenceGap, oneHundredth in H.
  destruct (Js.ltb (Js.double (1 # 100))
                   (Qabs (Js.sub (confidence w) (confidence c)))) eqn:E.
  - apply ltb_true in E. destruct H as [[H1 H2]|[H1 H2]]; [|lra].
    assert (Hd : (0 <= Js.sub (confidence w) (confidence c))%Q)
      by (apply double_nonneg; lra).
    revert E. apply Qabs_case; intros; lra.
  - apply ltb_false in E. destruct H as [[H1 H2]|[H1 H2]]; lra.
Qed.

(** A candidate that wins against every other candidate is the head of the
    sorted candidates. *)
Lemma dominant_wins (l : list Prediction) (w : Prediction) :
  In w l ->
  (forall c, In c l -> c = w \/ beats w c) ->
  winner l = Some w.
Proof.
  unfold winner. induction l as [|a l IH]; intros Hin Hdom; [contradiction|].
  simpl Js.sort.
  assert (Hl : forall c, In c l -> c = w \/ beats w c)
    by (intros c Hc; apply Hdom; right; exact Hc).
  destruct (Hdom a (or_introl eq_refl)) as [->|Hb].
  - destruct (Js.sort compareCandidates l) as [|b s] eqn:E; [reflexivity|].
    simpl. destruct (Qle_bool (compareCandidates w b) 0) eqn:F; [reflexivity|].
    simpl. f_equal.
    assert (Hbl : In b l) by (apply (sort_in compareCandidates); rewrite E; left; reflexivity).
    destruct (Hl b Hbl) as [->|Hbeat]; [reflexivity|].
    rewrite (beats_first _ _ Hbeat) in F. discriminate.
  - assert (Hw : In w l).
    { destruct Hin as [->|Hin]; [|exact Hin].
      exfalso. pose proof (beats_first _ _ Hb) as H1.
      rewrite (beats_second _ _ Hb) in H1. discriminate. }
    specialize (IH Hw Hl).
    destruct (Js.sort compareCandidates l) as [|b s]; [discriminate|].
    simpl in IH. injection IH as ->.
    simpl. rewrite (beats_second _ _ Hb). reflexivity.
Qed.

(** The computed difference against the exact one: an exact difference of
    at most 0.01 is computed as at most 0.01, one of [0.01 + 10^-15] or more
    as more than 0.01. *)
Lemma confidenceGap_exact (a b : Prediction) :
  ((Qabs (confidence a - confidence b) <= 1 # 100)%Q ->
   (confidenceGap a b <= oneHundredth)%Q)
  /\ (((1 # 100) + (1 # 1000000000000000)
       <= Qabs (confidence a - confidence b))%Q ->
      (oneHundredth < confidenceGap a b)%Q).
Proof.
  unfold confidenceGap, oneHundredth, Js.sub. rewrite double_abs.
  rewrite (Qabs_Qminus (confidence b) (confidence a)).
  split; intros H; apply double_mono in H.
  - exact H.
  - eapply Qlt_le_trans; [|exact H]. vm_compute. reflexivity.
Qed.

(** Counterexample of C5: the confidences 0.02 and 0.01 do not differ by
    less than 0.01 (the difference, exact or computed, is the double 0.01),
    and the winner is the candidate with the lower confidence, because it is
    more to the left. *)
Lemma C5_difference_of_exactly_one_hundredth :
  (confidence confident - confidence leftmost == oneHundredth)%Q
  /\ (confidenceGap confident leftmost == oneHundredth)%Q
  /\ ~ (Qabs (confidence confident - confidence leftmost) < 1 # 100)%Q
  /\ (confidence leftmost < confidence confident)%Q
  /\ (x (bbox leftmost) < x (bbox confident))%Q
  /\ winner [confident; leftmost] = Some leftmost
  /\ winner [leftmost; confident] = Some leftmost.
Proof.
  split; [vm_compute; reflexivity|].
  split; [vm_compute; reflexivity|].
  split; [vm_compute; discriminate|].
  repeat split; vm_compute; reflexivity.
Qed.

(** C5 (amended).  When a slot other than medicineName has two or more
    candidates, the winner is decided by the pairwise rule on the difference
    of the confidences as computed in double precision: the candidate with
    the higher confidence wins when that difference is more than 0.01; when
    it is at most 0.01 (exactly 0.01 included, as for 0.02 against 0.01) the
    candidate with the smaller x wins, and at equal x the one assigned
    first.  The computed difference is the same in both orders of the pair;
    it is at most 0.01 whenever the exact difference is, and more than 0.01
    whenever the exact difference is at least [0.01 + 10^-15]; for 0.91
    against 0.90 it is 0.010000000000000009 and the confidence decides.  A
    candidate that wins against every other candidate of the slot is the
    winner of the slot. *)
Theorem C5_winner_rule :
  (forall a b,
     (oneHundredth < confidenceGap a b)%Q ->
     (confidence b < confidence a)%Q ->
     winner [a; b] = Some a /\ winner [b; a] = Some a)
  /\ (forall a b,
        (confidenceGap a b <= oneHundredth)%Q ->
        (x (bbox a) < x (bbox b))%Q ->
        winner [a; b] = Some a /\ winner [b; a] = Some a)
  /\ (forall a b,
        (confidenceGap a b <= oneHundredth)%Q ->
        (x (bbox a) == x (bbox b))%Q ->
        winner [a; b] = Some a)
  /\ (forall l w,
        In w l ->
        (forall c, In c l -> c = w \/ beats w c) ->
        winner l = Some w)
  /\ (forall a b, (confidenceGap a b == confidenceGap b a)%Q)
  /\ (forall a b,
        ((Qabs (confidence a - confidence b) <= 1 # 100)%Q ->
         (confidenceGap a b <= oneHundredth)%Q)
        /\ (((1 # 100) + (1 # 1000000000000000)
             <= Qabs (confidence a - confidence b))%Q ->
            (oneHundredth < confidenceGap a b)%Q))
  /\ (confidenceGap slightlyAhead slightlyBehind
      = Js.double (10000000000000009 # 1000000000000000000)
      /\ (oneHundredth < confidenceGap slightlyAhead slightlyBehind)%Q
      /\ (x (bbox slightlyBehind) < x (bbox slightlyAhead))%Q
      /\ winner [slightlyAhead; slightlyBehind] = Some slightlyAhead
      /\ winner [slightlyBehind; slightlyAhead] = Some slightlyAhead).
Proof.
  assert (Hpair : forall a b, beats a b ->
            winner [a; b] = Some a /\ winner [b; a] = Some a).
  { intros a b H. split; apply dominant_wins; simpl; auto;
      intros c [<-|[<-|[]]]; auto. }
  split; [intros a b H1 H2; apply Hpair; left; split; assumption|].
  split; [intros a b H1 H2; apply Hpair; right; split; assumption|].
  split; [|split; [exact dominant_wins|]].
  - intros a b H1 H2. unfold winner. simpl.
    assert (Qle_bool (compareCandidates a b) 0 = true) as ->; [|reflexivity].
    apply Qle_bool_iff. unfold compareCandidates. cbv zeta.
    unfold confidenceGap, oneHundredth in H1.
    destruct (Js.ltb (Js.double (1 # 100))
                     (Qabs (Js.sub (confidence b) (confidence a)))) eqn:E.
    + exfalso. apply ltb_true in E. lra.
    + lra.
  - split; [intros a b; apply sub_abs_sym|].
    split; [exact confidenceGap_exact|].
    vm_compute. repeat split; reflexivity.
Qed.

Lemma C5_winner_rule_witness :
  (winner [det "Amount" (box 0 0) (9 # 10) None; det "Amount" (box 0 0) (1 # 2) None]
   = Some (det "Amount" (box 0 0) (9 # 10) None)
   /\ winner [det "Amount" (box 0 0) (1 # 2) None; det "Amount" (box 0 0) (9 # 10) None]
      = Some (det "Amount" (box 0 0) (9 # 10) None))
  /\ (winner [leftmost; confident] = Some leftmost
      /\ winner [confident; leftmost] = Some leftmost)
  /\ winner [det "Amount" (box 0 0) (1 # 2) (Some "40"); det "Amount" (box 0 0) (1 # 2) None]
     = Some (det "Amount" (box 0 0) (1 # 2) (Some "40"))
  /\ winner [confident; leftmost; confident] = Some leftmost
  /\ (oneHundredth < confidenceGap (det "Amount" (box 0 0) (9 # 10) None)
                                   (det "Amount" (box 0 0) (1 # 2) None))%Q.
Proof.
  destruct C5_winner_rule as [H1 [H2 [H3 [H4 [_ [H6 _]]]]]].
  split; [|split; [|split; [|split]]].
  - apply H1.
    + vm_compute. reflexivity.
    + vm_compute. reflexivity.
  - apply (H2 leftmost confident).
    + vm_compute. discriminate.
    + vm_compute. reflexivity.
  - apply H3.
    + vm_compute. discriminate.
    + vm_compute. reflexivity.
  - apply (H4 [confident; leftmost; confident] leftmost).
    + simpl. right. left. reflexivity.
    + intros c [<-|[<-|[<-|[]]]].
      * right. right. split; [vm_compute; discriminate|vm_compute; reflexivity].
      * left. reflexivity.
      * right. right. split; [vm_compute; discriminate|vm_compute; reflexivity].
  - apply (H6 (det "Amount" (box 0 0) (9 # 10) None)
               (det "Amount" (box 0 0) (1 # 2) None)).
    vm_compute. discriminate.
Defined.

(** ** The value of a slot *)

Lemma getField_fillRow classified (row : Row) (f : FieldName) :
  f <> MedName ->
  getField f (fold_left (assignField classified) fieldPriority row)
  = getField f (assignField classified row f).
Proof.
  intros Hf. unfold fieldPriority. cbn [fold_left].
  destruct f; try (contradiction Hf; reflexivity); unfold assignField;
    destruct (winner (candidatesOf classified BatchExp));
    destruct (winner (candidatesOf classified Quantity));
    destruct (winner (candidatesOf classified HsnCode));
    destruct (winner (candidatesOf classified Amount));
    reflexivity.
Qed.

(** Counterexample of C6: the winning quantity carries the extracted value
    [''] (present, empty) and the slot receives the placeholder "1". *)
Lemma C6_empty_value_replaced :
  map value (assignedTo (Js.sort compareAnchors (filter isAnchor emptyValue))
                        (filter isNonAnchor emptyValue) 0) = [Some ""]
  /\ groupByRowCaptain emptyValue
     = Ok [mkRow (Some "Medicine 1") None (Some "1") None None].
Proof. split; vm_compute; reflexivity. Qed.

(** C6 (amended).  For the winning detection of a slot other than
    medicineName, the slot receives the extracted value of the detection if
    it is present and not the empty string; otherwise (no value, or the
    empty string) it receives the placeholder of the slot: "1" for quantity,
    "0" for amount, "3004" for hsnCode and the raw class label of the
    winning detection for batchAndExpiry. *)
Theorem C6_slot_value (row : Row) (assigned : list Prediction)
  (classified : list (option FieldName * Prediction)) (f : FieldName)
  (p : Prediction) :
  mapM (fun q => g <- withClass getFieldName (class q) ;; Ok (g, q)) assigned
  = Ok classified ->
  f <> MedName ->
  winner (candidatesOf classified f) = Some p ->
  exists row',
    fillRow row assigned = Ok row'
    /\ getField f row'
       = match value p with
         | Some (String c v) => Some (String c v)
         | _ => match f with
                | Quantity => Some "1"
                | Amount => Some "0"
                | HsnCode => Some "3004"
                | _ => class p
                end
         end.
Proof.
  intros Hc Hf Hw.
  exists (fold_left (assignField classified) fieldPriority row).
  split; [unfold fillRow; rewrite Hc; reflexivity|].
  rewrite getField_fillRow by exact Hf.
  destruct f; try (contradiction Hf; reflexivity);
    unfold assignField; rewrite Hw; unfold fieldValue;
    destruct (value p) as [[|c v]|]; destruct row; reflexivity.
Qed.

Lemma C6_slot_value_witness :
  exists row',
    fillRow (newRow 0) [det "HSN Code" (box 0 0) 1 None] = Ok row'
    /\ getField HsnCode row' = Some "3004".
Proof.
  apply (C6_slot_value (newRow 0) [det "HSN Code" (box 0 0) 1 None]
           [(Some HsnCode, det "HSN Code" (box 0 0) 1 None)] HsnCode
           (det "HSN Code" (box 0 0) 1 None)).
  - vm_compute. reflexivity.
  - discriminate.
  - vm_compute. reflexivity.
Defined.

(** ** Metadata *)

Lemma isMedicineRelated_patterns (normalized : string) :
  isMedicineRelated normalized = Js.includesSome normalized lineItemPatterns.
Proof.
  change lineItemPatterns
    with ["med name"; "batch exp"; "quantity"; "hsn code"; "amount"].
  unfold isMedicineRelated, Js.includesSome. cbn [existsb].
  rewrite orb_false_r, !orb_assoc. reflexivity.
Qed.

Lemma MetaField_eq_dec (f g : MetaField) : {f = g} + {f <> g}.
Proof. decide equality. Qed.

Lemma getMeta_setMeta_same (f : MetaField) (v : option string) (m : BillMetadata) :
  getMeta f (setMeta f v m) = v.
Proof. destruct f; reflexivity. Qed.

Lemma getMeta_setMeta_other (f g : MetaField) (v : option string) (m : BillMetadata) :
  f <> g -> getMeta f (setMeta g v m) = getMeta f m.
Proof. intros H. destruct f, g; try reflexivity; contradiction H; reflexivity. Qed.

Lemma in_metadataKeys (f : MetaField) : In f metadataKeys.
Proof. destruct f; simpl; auto 7. Qed.

Lemma firstMatch_some (m : BillMetadata) (className : string) (f : MetaField) :
  firstMatch m className = Some f ->
  getMeta f m = None /\ matchesMetadataField className f = true.
Proof.
  unfold firstMatch. intros H. apply find_some in H. destruct H as [_ H].
  destruct (getMeta f m); [discriminate|]. split; [reflexivity|exact H].
Qed.

Lemma matchesMetadataField_empty (f : MetaField) :
  matchesMetadataField "" f = false.
Proof. destruct f; reflexivity. Qed.

(** What one step of the scan does to one field. *)
Lemma metadataStep_field (m : BillMetadata) (p : Prediction) (f : MetaField)
  (c : string) :
  getMeta f (metadataStep m p) = Some c ->
  getMeta f m = Some c
  \/ (getMeta f m = None
      /\ class p = Some c
      /\ isMedicineRelated (normalizeClassName c) = false
      /\ firstMatch m c = Some f).
Proof.
  unfold metadataStep.
  destruct (isMedicineRelated (normalizeClassName (Js.orEmpty (class p)))) eqn:Es;
    [auto|].
  destruct (firstMatch m (Js.orEmpty (class p))) as [g|] eqn:Ef; [|auto].
  destruct (MetaField_eq_dec f g) as [->|Hfg].
  - rewrite getMeta_setMeta_same. intros H. injection H as H.
    right. destruct (firstMatch_some _ _ _ Ef) as [Hnone Hm].
    destruct (class p) as [s|]; simpl in *.
    + subst s. auto.
    + subst c. rewrite matchesMetadataField_empty in Hm. discriminate.
  - rewrite getMeta_setMeta_other by exact Hfg. auto.
Qed.

Lemma metadataStep_keeps (m : BillMetadata) (p : Prediction) (f : MetaField)
  (c : string) :
  getMeta f m = Some c -> getMeta f (metadataStep m p) = Some c.
Proof.
  intros H. unfold metadataStep.
  destruct (isMedicineRelated _); [exact H|].
  destruct (firstMatch m (Js.orEmpty (class p))) as [g|] eqn:Ef; [|exact H].
  rewrite getMeta_setMeta_other; [exact H|].
  intros ->. apply firstMatch_some in Ef. destruct Ef as [Hn _]. congruence.
Qed.

Lemma metadataStep_fills (m : BillMetadata) (p : Prediction) (f : MetaField) :
  isMedicineRelated (normalizeClassName (Js.orEmpty (class p))) = false ->
  firstMatch m (Js.orEmpty (class p)) = Some f ->
  metadataStep m p = setMeta f (Some (Js.orEmpty (class p))) m.
Proof. intros Hs Hf. unfold metadataStep. rewrite Hs, Hf. reflexivity. Qed.

Lemma scan_keeps (l : list Prediction) (m : BillMetadata) (f : MetaField)
  (c : string) :
  getMeta f m = Some c -> getMeta f (fold_left metadataStep l m) = Some c.
Proof.
  revert m. induction l as [|p l IH]; intros m H; simpl; [exact H|].
  apply IH, metadataStep_keeps, H.
Qed.

(** A field filled at the end of a scan was filled before the scan or by
    one detection of the scan, at a moment when it was still empty. *)
Lemma scan_field (l : list Prediction) (m : BillMetadata) (f : MetaField)
  (c : string) :
  getMeta f (fold_left metadataStep l m) = Some c ->
  getMeta f m = Some c
  \/ exists pre p post,
       l = pre ++ p :: post
       /\ getMeta f (fold_left metadataStep pre m) = None
       /\ class p = Some c
       /\ isMedicineRelated (normalizeClassName c) = false
       /\ firstMatch (fold_left metadataStep pre m) c = Some f.
Proof.
  revert m. induction l as [|a l IH]; intros m H; simpl in H; [auto|].
  destruct (IH _ H) as [Hnow|[pre [p [post [-> [Hn [Hc [Hs Hf]]]]]]]].
  - destruct (metadataStep_field _ _ _ _ Hnow) as [Hm|[Hn [Hc [Hs Hf]]]]; [auto|].
    right. exists [], a, l. simpl. auto.
  - right. exists (a :: pre), p, post. simpl. auto.
Qed.

Lemma sorted_by_confidence (l : list Prediction) :
  StronglySorted (fun a b => (confidence b <= confidence a)%Q)
                 (Js.sort compareConfidence l).
Proof.
  apply sort_sorted.
  - intros a b c Hab Hbc. eapply Qle_trans; eassumption.
  - intros a b H. apply Qle_bool_iff in H. unfold compareConfidence in H. lra.
  - intros a b H. unfold compareConfidence in H.
    destruct (Qlt_le_dec (confidence a) (confidence b)) as [Hlt|Hle].
    + apply Qlt_le_weak, Hlt.
    + assert (Qle_bool (confidence b - confidence a) 0 = true)
        by (apply Qle_bool_iff; lra).
      congruence.
Qed.

(** Counterexample of C7.  The labels "Medicine Name", "MedName" and "Unit
    Price Date" are classified as line-item fields by [getFieldName], but
    they contain none of the five substrings that the scan skips, and each
    of them fills a metadata field.  And a field is not always filled by the
    first detection of the scan that matches it: "Doctor Name" matches
    doctorName and comes first, but it fills customerName, and doctorName is
    filled by the less confident "Dr. Rao". *)
Lemma C7_classified_label_fills_metadata :
  (getFieldName "Medicine Name" = Some MedName
   /\ customerName (extractMetadata [det "Medicine Name" (box 100 0) 1 None])
      = Some "Medicine Name")
  /\ (getFieldName "MedName" = Some MedName
      /\ customerName (extractMetadata [det "MedName" (box 100 0) 1 None])
         = Some "MedName")
  /\ (getFieldName "Unit Price Date" = Some Amount
      /\ billDate (extractMetadata [det "Unit Price Date" (box 100 0) 1 None])
         = Some "Unit Price Date")
  /\ (Js.sort compareConfidence doctorExample = doctorExample
      /\ matchesMetadataField "Doctor Name" DoctorName = true
      /\ extractMetadata doctorExample
         = mkMetadata (Some "Doctor Name") None None None None (Some "Dr. Rao")).
Proof. vm_compute. repeat split; reflexivity. Qed.

(** C7 (amended).  [extractMetadata] scans the detections by descending
    confidence.  A detection whose normalized label contains one of the
    five substrings "med name", "batch exp", "quantity", "hsn code" and
    "amount" is skipped and fills no field; the other labels, also those
    that the field classifier recognises through another pattern, take part
    in the scan.  A detection of the scan fills one field only: the first
    still empty field, in the order of the keys, of which its label contains
    a pattern.  A field that is filled holds the raw class label of the
    first detection of the scan that filled it in this way, and a field,
    once filled, keeps its value to the end of the scan. *)
Theorem C7_metadata_first_match (predictions : list Prediction) :
  let scan := Js.sort compareConfidence predictions in
  let after := fun pre => fold_left metadataStep pre emptyMetadata in
  Permutation scan predictions
  /\ StronglySorted (fun a b => (confidence b <= confidence a)%Q) scan
  /\ extractMetadata predictions = after scan
  /\ (forall m p,
        Js.includesSome (normalizeClassName (Js.orEmpty (class p)))
                        lineItemPatterns = true ->
        metadataStep m p = m)
  /\ (forall f c,
        getMeta f (extractMetadata predictions) = Some c ->
        exists pre p post,
          scan = pre ++ p :: post
          /\ getMeta f (after pre) = None
          /\ class p = Some c
          /\ Js.includesSome (normalizeClassName c) lineItemPatterns = false
          /\ matchesMetadataField c f = true
          /\ firstMatch (after pre) c = Some f)
  /\ (forall pre p post f,
        scan = pre ++ p :: post ->
        Js.includesSome (normalizeClassName (Js.orEmpty (class p)))
                        lineItemPatterns = false ->
        firstMatch (after pre) (Js.orEmpty (class p)) = Some f ->
        getMeta f (extractMetadata predictions) = Some (Js.orEmpty (class p)))
  /\ (forall pre post f c,
        scan = pre ++ post ->
        getMeta f (after pre) = Some c ->
        getMeta f (extractMetadata predictions) = Some c)
  /\ (forall m p f g,
        Js.includesSome (normalizeClassName (Js.orEmpty (class p)))
                        lineItemPatterns = false ->
        firstMatch m (Js.orEmpty (class p)) = Some f ->
        g <> f ->
        getMeta g (metadataStep m p) = getMeta g m).
Proof.
  intros scan after.
  split; [apply sort_perm|].
  split; [apply sorted_by_confidence|].
  split; [reflexivity|].
  split; [|split; [|split; [|split]]].
  - intros m p H. unfold metadataStep.
    rewrite isMedicineRelated_patterns, H. reflexivity.
  - intros f c H. unfold extractMetadata in H.
    destruct (scan_field _ _ _ _ H) as [Hm|[pre [p [post [Hl [Hn [Hc [Hs Hf]]]]]]]].
    + destruct f; discriminate.
    + exists pre, p, post. rewrite <- isMedicineRelated_patterns.
      repeat split; try assumption.
      apply (firstMatch_some _ _ _ Hf).
  - intros pre p post f Hl Hs Hf. unfold extractMetadata. fold scan.
    rewrite Hl, fold_left_app. simpl. apply scan_keeps.
    unfold after in Hf. rewrite <- isMedicineRelated_patterns in Hs.
    rewrite (metadataStep_fills _ _ _ Hs Hf). apply getMeta_setMeta_same.
  - intros pre post f c Hl H. unfold extractMetadata. fold scan.
    rewrite Hl, fold_left_app. apply scan_keeps, H.
  - intros m p f g Hs Hf Hg. rewrite <- isMedicineRelated_patterns in Hs.
    rewrite (metadataStep_fills _ _ _ Hs Hf). apply getMeta_setMeta_other, Hg.
Qed.

(** A detection fills one field only, the first empty one that it matches
    in the order of the keys. *)
Example one_field_per_detection :
  extractMetadata [ det "Customer Name" (box 0 0) (8 # 10) None;
                    det "Doctor Name" (box 0 0) (9 # 10) None ]
  = mkMetadata (Some "Doctor Name") None None None None None.
Proof. vm_compute. reflexivity. Qed.

Lemma C7_metadata_first_match_witness :
  metadataStep emptyMetadata (det "Amount Date" (box 540 0) (99 # 100) None)
  = emptyMetadata
  /\ (exists pre p post,
        Js.sort compareConfidence metaExample = pre ++ p :: post
        /\ getMeta CustomerName (fold_left metadataStep pre emptyMetadata) = None
        /\ class p = Some "Patient"
        /\ Js.includesSome (normalizeClassName "Patient") lineItemPatterns = false
        /\ matchesMetadataField "Patient" CustomerName = true
        /\ firstMatch (fold_left metadataStep pre emptyMetadata) "Patient"
           = Some CustomerName)
  /\ getMeta CustomerName (extractMetadata metaExample) = Some "Patient"
  /\ getMeta CustomerName (extractMetadata metaExample) = Some "Patient".
Proof.
  pose proof (C7_metadata_first_match metaExample) as H. cbv beta zeta in H.
  destruct H as [_ [_ [_ [H4 [H5 [H6 [H7 _]]]]]]].
  split; [|split; [|split]].
  - apply H4. vm_compute. reflexivity.
  - apply H5. vm_compute. reflexivity.
  - apply (H6 [det "Amount Date" (box 540 0) (99 # 100) None]
              (det "Patient" (box 520 0) (9 # 10) None)
              [det "Customer Name" (box 500 0) (1 # 2) None] CustomerName).
    + vm_compute. reflexivity.
    + vm_compute. reflexivity.
    + vm_compute. reflexivity.
  - apply (H7 [det "Amount Date" (box 540 0) (99 # 100) None;
               det "Patient" (box 520 0) (9 # 10) None]
              [det "Customer Name" (box 500 0) (1 # 2) None] CustomerName "Patient").
    + vm_compute. reflexivity.
    + vm_compute. reflexivity.
Defined.

(** ** Metadata and medicine detections are disjoint *)

Lemma matched_not_kept (p : Prediction) (f : MetaField) :
  isMedicineRelated (normalizeClassName (Js.orEmpty (class p))) = false ->
  matchesMetadataField (Js.orEmpty (class p)) f = true ->
  keepMedicine p = false.
Proof.
  intros Hs Hm. unfold keepMedicine. rewrite Hs.
  assert (existsb (fun field => Js.includesSome
                                  (normalizeClassName (Js.orEmpty (class p)))
                                  (METADATA_CLASSES field)) metadataKeys = true) as ->.
  { apply existsb_exists. exists f. split; [apply in_metadataKeys|exact Hm]. }
  reflexivity.
Qed.

(** A detection that changes the metadata is dropped by the filter. *)
Lemma filling_not_kept (m : BillMetadata) (p : Prediction) :
  metadataStep m p <> m -> keepMedicine p = false.
Proof.
  unfold metadataStep.
  destruct (isMedicineRelated (normalizeClassName (Js.orEmpty (class p)))) eqn:Es;
    [intros H; contradiction H; reflexivity|].
  destruct (firstMatch m (Js.orEmpty (class p))) as [f|] eqn:Ef;
    [|intros H; contradiction H; reflexivity].
  intros _. apply firstMatch_some in Ef. destruct Ef as [_ Hm].
  apply (matched_not_kept p f Es Hm).
Qed.

(** C8.  [extractBillData] takes the metadata from all detections and the
    rows from the filtered detections only, and the two do not meet: a
    detection that fills a metadata field is dropped by the filter, no
    detection of the filtered set carries a label that stands in a metadata
    field, and a detection labelled "Customer Name" is never in the
    filtered set. *)
Theorem C8_metadata_medicine_exclusive (predictions : list RawPrediction) :
  let all := convertToBboxFormat predictions in
  let medicine := filterMedicinePredictions all in
  (forall data,
     extractBillData predictions = Ok data ->
     metadata data = extractMetadata all
     /\ exists rows, groupByRowCaptain medicine = Ok rows
                     /\ medicines data = filter hasName rows)
  /\ (forall m p, In p all -> metadataStep m p <> m -> ~ In p medicine)
  /\ (forall f c,
        getMeta f (extractMetadata all) = Some c ->
        forall p, In p medicine -> class p <> Some c)
  /\ (forall p, In p medicine -> class p <> Some "Customer Name").
Proof.
  intros all medicine. split; [|split; [|split]].
  - intros data H. unfold extractBillData in H. fold all medicine in H.
    destruct (groupByRowCaptain medicine) as [rows|e]; [|discriminate].
    simpl in H. injection H as <-. simpl. split; [reflexivity|].
    exists rows. split; reflexivity.
  - intros m p _ Hch Hin. apply filter_In in Hin. destruct Hin as [_ Hk].
    rewrite (filling_not_kept m p Hch) in Hk. discriminate.
  - intros f c H p Hin Hc. unfold extractMetadata in H.
    destruct (scan_field _ _ _ _ H) as [Hm|[pre [p0 [post [_ [_ [_ [Hs Hf]]]]]]]].
    + destruct f; discriminate.
    + apply firstMatch_some in Hf. destruct Hf as [_ Hm].
      apply filter_In in Hin. destruct Hin as [_ Hk].
      rewrite (matched_not_kept p f) in Hk; [discriminate| |];
        rewrite Hc; assumption.
  - intros p Hin Hc. apply filter_In in Hin. destruct Hin as [_ Hk].
    unfold keepMedicine in Hk. rewrite Hc in Hk. vm_compute in Hk. discriminate.
Qed.

Lemma C8_metadata_medicine_exclusive_witness :
  (metadata (mkExtracted [mkRow (Some "Medicine 1") None (Some "5") None None]
                         (mkMetadata (Some "Customer Name") None None None None None) 1)
   = extractMetadata (convertToBboxFormat billExample)
   /\ exists rows,
        groupByRowCaptain (filterMedicinePredictions (convertToBboxFormat billExample))
        = Ok rows
        /\ medicines (mkExtracted [mkRow (Some "Medicine 1") None (Some "5") None None]
                        (mkMetadata (Some "Customer Name") None None None None None) 1)
           = filter hasName rows)
  /\ ~ In (mkPrediction (Some "Customer Name") (mkBBox 0 500 0 0) 0 (Some "Asha"))
          (filterMedicinePredictions (convertToBboxFormat billExample))
  /\ (forall p, In p (filterMedicinePredictions (convertToBboxFormat billExample)) ->
                class p <> Some "Customer Name")
  /\ class (mkPrediction (Some "Quantity") (mkBBox 0 102 0 0) (9 # 10) (Some "5"))
     <> Some "Customer Name".
Proof.
  pose proof (C8_metadata_medicine_exclusive billExample) as H. cbv beta zeta in H.
  destruct H as [H1 [H2 [H3 H4]]].
  split; [|split; [|split]]; [| | |apply H4; vm_compute; right; left; reflexivity].
  - apply H1. vm_compute. reflexivity.
  - apply (H2 emptyMetadata).
    + vm_compute. right. right. left. reflexivity.
    + vm_compute. discriminate.
  - apply (H3 CustomerName "Customer Name"). vm_compute. reflexivity.
Defined.

(** ** The zero-anchor row *)

Lemma FieldName_eqb_eq (f g : FieldName) : FieldName_eqb f g = true <-> f = g.
Proof. destruct f, g; simpl; split; congruence. Qed.

Lemma getField_setField_same (f : FieldName) (v : option string) (row : Row) :
  getField f (setField f v row) = v.
Proof. destruct f; reflexivity. Qed.

Lemma getField_setField_other (f g : FieldName) (v : option string) (row : Row) :
  f <> g -> getField f (setField g v row) = getField f row.
Proof. intros H. destruct f, g; try reflexivity; contradiction H; reflexivity. Qed.

Lemma getFieldName_empty : getFieldName "" = None.
Proof. reflexivity. Qed.

Lemma fallbackStep_ok (row : Row) (p : Prediction) :
  class p <> None -> fallbackStep row p = Ok (fallbackFill row p).
Proof.
  intros H. unfold fallbackStep, fallbackFill.
  destruct (class p) as [c|]; [|contradiction H; reflexivity].
  simpl. destruct (getFieldName c) as [f|]; [|reflexivity].
  destruct (getField f row); reflexivity.
Qed.

(** First writer wins: a slot that is empty before the loop receives the
    class label of the first detection classified into it. *)
Lemma fallback_first_writer (l : list Prediction) (row : Row) (f : FieldName) :
  getField f (fold_left fallbackFill l row)
  = match getField f row with
    | Some v => Some v
    | None =>
        match find (classifiedAs f) l with
        | Some p => class p
        | None => None
        end
    end.
Proof.
  revert row. induction l as [|a l IH]; intros row.
  - simpl. destruct (getField f row); reflexivity.
  - cbn [fold_left find]. rewrite IH.
    assert (Hhead : classifiedAs f a
                    = match getFieldName (Js.orEmpty (class a)) with
                      | Some g => FieldName_eqb g f
                      | None => false
                      end).
    { unfold classifiedAs. destruct (class a); reflexivity. }
    rewrite Hhead. unfold fallbackFill.
    destruct (getFieldName (Js.orEmpty (class a))) as [g|] eqn:Eg; [|reflexivity].
    assert (Hc : class a = Some (Js.orEmpty (class a))).
    { destruct (class a); [reflexivity|].
      change (getFieldName "" = Some g) in Eg.
      rewrite getFieldName_empty in Eg. discriminate. }
    destruct (FieldName_eqb g f) eqn:Efg.
    + apply FieldName_eqb_eq in Efg. subst g.
      destruct (getField f row) as [v|] eqn:Er.
      * rewrite Er. reflexivity.
      * rewrite getField_setField_same. rewrite Hc. reflexivity.
    + assert (Hne : f <> g).
      { intros ->. destruct g; discriminate. }
      destruct (getField g row);
        [|rewrite getField_setField_other by exact Hne]; reflexivity.
Qed.

(** Without anchor and with a class on every detection, the result is the
    single row filled by the fallback loop over the whole input. *)
Lemma fallback_row (predictions : list Prediction) :
  predictions <> [] ->
  filter isAnchor predictions = [] ->
  (forall p, In p predictions -> class p <> None) ->
  groupByRowCaptain predictions
  = Ok [fold_left fallbackFill predictions emptyRow].
Proof.
  intros Hne Ha Hc. unfold groupByRowCaptain.
  destruct predictions as [|p ps]; [contradiction Hne; reflexivity|].
  rewrite Ha.
  rewrite (foldM_ok fallbackStep fallbackFill).
  - reflexivity.
  - intros s a Hin. apply fallbackStep_ok, Hc, Hin.
Qed.

(** C9 (the code departs from the claim).  The claim: a non-empty input
    without anchor yields exactly one row, filled from every detection of
    the whole input, first writer first.  It does so when every detection
    has a class ([fallback_row], [fallback_first_writer]); on the input
    [quantityOnly; unlabelled], which is not empty and has no anchor, the
    loop over the whole input reaches the detection without class and
    raises a TypeError instead of returning the row. *)
Theorem C9_fallback_raises_on_missing_class :
  groupByRowCaptain [quantityOnly]
  = Ok [mkRow None None (Some "Quantity") None None]
  /\ filter isAnchor [quantityOnly; unlabelled] = []
  /\ groupByRowCaptain [quantityOnly; unlabelled] = Throw TypeError.
Proof. repeat split; vm_compute; reflexivity. Qed.

(** ** No anchor, no named row *)

(** A label classified as medicine name is an anchor label, unless it is
    classified through the pattern [medname]. *)
Lemma getFieldName_MedName (className : string) :
  getFieldName className = Some MedName ->
  isAnchorClass className = true
  \/ Js.includes (normalizeClassName className) "medname" = true.
Proof.
  unfold getFieldName, isAnchorClass.
  generalize (normalizeClassName className). intros n.
  cbn [find FIELD_MAPPING fst].
  change (normalizeClassName "Med Name") with "med name".
  change (normalizeClassName "Batch Exp") with "batch exp".
  change (normalizeClassName "Quantity") with "quantity".
  change (normalizeClassName "HSN Code") with "hsn code".
  change (normalizeClassName "Amount") with "amount".
  rewrite (String.eqb_sym "med name" n).
  destruct (String.eqb n "med name"); [intros _; left; reflexivity|].
  destruct (String.eqb "batch exp" n); [discriminate|].
  destruct (String.eqb "quantity" n); [discriminate|].
  destruct (String.eqb "hsn code" n); [discriminate|].
  destruct (String.eqb "amount" n); [discriminate|].
  destruct (Js.includes n "med name") eqn:E1.
  { intros _. left. rewrite !orb_true_r. reflexivity. }
  destruct (Js.includes n "medname") eqn:E2; [intros _; right; reflexivity|].
  destruct (Js.includes n "medicine name") eqn:E3.
  { intros _. left.
    rewrite (includes_app_l n "medicine" " name" E3).
    rewrite !orb_true_r. reflexivity. }
  simpl.
  destruct (Js.includes n "batch exp" || Js.includes n "batchexp"); [discriminate|].
  destruct (Js.includes n "quantity" || String.eqb n "qty"); [discriminate|].
  destruct (Js.includes n "hsn code" || Js.includes n "hsncode"); [discriminate|].
  destruct (Js.includes n "amount" || Js.includes n "price"); discriminate.
Qed.

(** Counterexample of C10: the label contains [quantity], so the filter
    keeps it, and [medname] not at its start, so it is no anchor and is
    classified as medicine name; the fallback row is named and kept. *)
Lemma C10_fallback_row_can_be_named :
  filter isAnchor (filterMedicinePredictions (convertToBboxFormat mednameInside)) = []
  /\ getFieldName "Quantity Medname" = Some MedName
  /\ isAnchorClass "Quantity Medname" = false
  /\ extractBillData mednameInside
     = Ok (mkExtracted [mkRow (Some "Quantity Medname") None None None None]
                       emptyMetadata 1).
Proof. repeat split; vm_compute; reflexivity. Qed.

(** C10 (amended).  For every input to [extractBillData] whose detections
    all have a class, and whose medicine-filtered set contains no anchor
    and no detection whose normalized label contains [medname], the result
    has no medicines and [totalMedicines] is 0: the fallback row has no
    name, because a label classified as medicine name is an anchor label
    or contains [medname], and the assembler drops the rows without
    name. *)
Theorem C10_no_anchor_no_medicine (predictions : list RawPrediction) :
  let all := convertToBboxFormat predictions in
  let medicine := filterMedicinePredictions all in
  (forall r, In r predictions -> raw_class r <> None) ->
  filter isAnchor medicine = [] ->
  (forall p, In p medicine ->
             Js.includes (normalizeClassName (Js.orEmpty (class p))) "medname" = false) ->
  exists data,
    extractBillData predictions = Ok data
    /\ medicines data = []
    /\ totalMedicines data = 0
    /\ metadata data = extractMetadata all.
Proof.
  intros all medicine Hclass Ha Hmed.
  unfold extractBillData. fold all medicine.
  destruct medicine as [|p0 ps] eqn:Em.
  - simpl. eexists. repeat split.
  - assert (Hc : forall p, In p medicine -> class p <> None).
    { intros p Hp. unfold medicine, filterMedicinePredictions in Hp.
      apply filter_In in Hp. destruct Hp as [Hp _].
      unfold all, convertToBboxFormat in Hp. apply in_map_iff in Hp.
      destruct Hp as [r [<- Hr]]. simpl. apply Hclass, Hr. }
    rewrite <- Em in *.
    rewrite fallback_row; [|rewrite Em; discriminate|exact Ha|exact Hc].
    assert (Hname : medName (fold_left fallbackFill medicine emptyRow) = None).
    { change (getField MedName (fold_left fallbackFill medicine emptyRow) = None).
      rewrite fallback_first_writer. simpl getField.
      destruct (find (classifiedAs MedName) medicine) as [p|] eqn:Ef; [|reflexivity].
      exfalso. apply find_some in Ef. destruct Ef as [Hin Hcl].
      unfold classifiedAs in Hcl.
      destruct (class p) as [c|] eqn:Ec; [|discriminate].
      destruct (getFieldName c) as [g|] eqn:Eg; [|discriminate].
      apply FieldName_eqb_eq in Hcl. subst g.
      destruct (getFieldName_MedName c Eg) as [Hanchor|Hinc].
      - assert (Hp : In p (filter isAnchor medicine)).
        { apply filter_In. split; [exact Hin|].
          unfold isAnchor. rewrite Ec, Hanchor.
          destruct c; [rewrite getFieldName_empty in Eg; discriminate|reflexivity]. }
        rewrite Ha in Hp. contradiction.
      - specialize (Hmed p Hin). rewrite Ec in Hmed. simpl in Hmed. congruence. }
    simpl bind. unfold hasName. cbn [filter]. rewrite Hname.
    eexists. repeat split.
Qed.

Lemma C10_no_anchor_no_medicine_witness :
  exists data,
    extractBillData [ mkRaw (Some "Quantity") 0 0 None None (Some (9 # 10)%Q) None;
                      mkRaw (Some "Bill Date") 0 40 None None None None ]
    = Ok data
    /\ medicines data = []
    /\ totalMedicines data = 0
    /\ metadata data
       = extractMetadata
           (convertToBboxFormat
              [ mkRaw (Some "Quantity") 0 0 None None (Some (9 # 10)%Q) None;
                mkRaw (Some "Bill Date") 0 40 None None None None ]).
Proof.
  apply (C10_no_anchor_no_medicine
           [ mkRaw (Some "Quantity") 0 0 None None (Some (9 # 10)%Q) None;
             mkRaw (Some "Bill Date") 0 40 None None None None ]).
  - intros r [<-|[<-|[]]]; discriminate.
  - vm_compute. reflexivity.
  - intros p Hp. vm_compute in Hp. destruct Hp as [<-|[]]. vm_compute. reflexivity.
Defined.

(** * Further properties of the pipeline *)

(** ** Normalization of class names *)

Lemma toLowerChar_idem (c : ascii) :
  Js.toLowerChar (Js.toLowerChar c) = Js.toLowerChar c.
Proof. destruct c as [[] [] [] [] [] [] [] []]; reflexivity. Qed.

Lemma isWhiteSpace_toLowerChar (c : ascii) :
  Js.isWhiteSpace (Js.toLowerChar c) = Js.isWhiteSpace c.
Proof. destruct c as [[] [] [] [] [] [] [] []]; reflexivity. Qed.

Lemma isWhiteSpace_lower_fixed (c : ascii) :
  Js.isWhiteSpace c = true -> Js.toLowerChar c = c.
Proof. destruct c as [[] [] [] [] [] [] [] []]; intros H; try reflexivity; discriminate. Qed.

Lemma toLowerCase_idem (s : string) :
  Js.toLowerCase (Js.toLowerCase s) = Js.toLowerCase s.
Proof.
  induction s as [|c s IH]; simpl; [reflexivity|].
  rewrite toLowerChar_idem, IH. reflexivity.
Qed.

Lemma trimStart_toLowerCase (s : string) :
  Js.trimStart (Js.toLowerCase s) = Js.toLowerCase (Js.trimStart s).
Proof.
  induction s as [|c s IH]; simpl; [reflexivity|].
  rewrite isWhiteSpace_toLowerChar.
  destruct (Js.isWhiteSpace c); [exact IH|reflexivity].
Qed.

Lemma trimEnd_toLowerCase (s : string) :
  Js.trimEnd (Js.toLowerCase s) = Js.toLowerCase (Js.trimEnd s).
Proof.
  induction s as [|c s IH]; simpl; [reflexivity|].
  rewrite IH, isWhiteSpace_toLowerChar.
  destruct (Js.trimEnd s) as [|d t]; simpl.
  - destruct (Js.isWhiteSpace c); reflexivity.
  - reflexivity.
Qed.

Lemma trim_toLowerCase (s : string) :
  Js.trim (Js.toLowerCase s) = Js.toLowerCase (Js.trim s).
Proof. unfold Js.trim. rewrite trimStart_toLowerCase, trimEnd_toLowerCase. reflexivity. Qed.

Lemma trimEnd_cons (c : ascii) (s : string) :
  Js.trimEnd (String c s)
  = match Js.trimEnd s with
    | EmptyString => if Js.isWhiteSpace c then EmptyString else String c EmptyString
    | String d t => String c (String d t)
    end.
Proof. reflexivity. Qed.

Lemma trimEnd_idem (s : string) : Js.trimEnd (Js.trimEnd s) = Js.trimEnd s.
Proof.
  induction s as [|c s IH]; [reflexivity|].
  rewrite (trimEnd_cons c s).
  destruct (Js.trimEnd s) as [|d t] eqn:E.
  - destruct (Js.isWhiteSpace c) eqn:W; [reflexivity|].
    rewrite trimEnd_cons. simpl. rewrite W. reflexivity.
  - rewrite (trimEnd_cons c (String d t)), IH. reflexivity.
Qed.

(** [trimEnd] keeps the first character of what it leaves. *)
Lemma trimEnd_head (c : ascii) (s : string) :
  Js.trimEnd (String c s) = "" \/ exists r, Js.trimEnd (String c s) = String c r.
Proof.
  simpl. destruct (Js.trimEnd s) as [|d t].
  - destruct (Js.isWhiteSpace c); [left; reflexivity|right; eexists; reflexivity].
  - right. eexists. reflexivity.
Qed.

Lemma trimStart_head (s : string) :
  Js.trimStart s = ""
  \/ exists c r, Js.trimStart s = String c r /\ Js.isWhiteSpace c = false.
Proof.
  induction s as [|c s IH]; simpl; [left; reflexivity|].
  destruct (Js.isWhiteSpace c) eqn:W; [exact IH|].
  right. exists c, s. split; [reflexivity|exact W].
Qed.

Lemma trimStart_idem (s : string) : Js.trimStart (Js.trimStart s) = Js.trimStart s.
Proof.
  destruct (trimStart_head s) as [->|[c [r [-> W]]]]; [reflexivity|].
  simpl. rewrite W. reflexivity.
Qed.

Lemma trim_head (s : string) :
  Js.trim s = ""
  \/ exists c r, Js.trim s = String c r /\ Js.isWhiteSpace c = false.
Proof.
  unfold Js.trim.
  destruct (trimStart_head s) as [->|[c [r [-> W]]]]; [left; reflexivity|].
  destruct (trimEnd_head c r) as [->|[r' ->]]; [left; reflexivity|].
  right. exists c, r'. split; [reflexivity|exact W].
Qed.

Lemma trimEnd_tail (c : ascii) (s : string) :
  Js.trimEnd (String c s) = String c s -> s <> "" -> Js.trimEnd s = s.
Proof.
  simpl. destruct (Js.trimEnd s) as [|d t] eqn:E.
  - destruct (Js.isWhiteSpace c); [discriminate|].
    intros H Hs. injection H as H. exfalso. apply Hs. symmetry. exact H.
  - intros H _. injection H as H. exact H.
Qed.

Lemma trimEnd_last_char (c : ascii) :
  Js.trimEnd (String c "") = String c "" -> Js.isWhiteSpace c = false.
Proof. simpl. destruct (Js.isWhiteSpace c); [discriminate|reflexivity]. Qed.

(** Collapsing a lower-case string without whitespace at its end. *)
Lemma collapse_wellSpaced (s : string) (b : bool) :
  s <> "" ->
  Js.trimEnd s = s ->
  Js.toLowerCase s = s ->
  wellSpaced b (Js.collapseFrom b s).
Proof.
  revert b. induction s as [|c s IH]; intros b Hne He Hl; [contradiction Hne; reflexivity|].
  simpl in Hl. injection Hl as Hc Hl.
  destruct s as [|d s'].
  - apply trimEnd_last_char in He. simpl. rewrite He. simpl. rewrite He.
    split; [exact Hc|reflexivity].
  - assert (He' : Js.trimEnd (String d s') = String d s')
      by (apply (trimEnd_tail c); [exact He|discriminate]).
    assert (Hne' : String d s' <> "") by discriminate.
    cbn [Js.collapseFrom].
    destruct (Js.isWhiteSpace c) eqn:W.
    + destruct b.
      * apply IH; assumption.
      * cbn [wellSpaced]. change (Js.isWhiteSpace " "%char) with true.
        cbv iota. split; [reflexivity|]. split; [reflexivity|].
        apply IH; assumption.
    + cbn [wellSpaced]. rewrite W. split; [exact Hc|].
      apply IH; assumption.
Qed.

Lemma wellSpaced_head_irrelevant (c : ascii) (s : string) (b b' : bool) :
  Js.isWhiteSpace c = false -> wellSpaced b (String c s) -> wellSpaced b' (String c s).
Proof. cbn [wellSpaced]. intros ->. auto. Qed.

Lemma wellSpaced_trimEnd (s : string) (b : bool) :
  wellSpaced b s -> Js.trimEnd s = s.
Proof.
  revert b. induction s as [|c s IH]; intros b H; [reflexivity|].
  cbn [wellSpaced] in H. cbn [Js.trimEnd].
  destruct (Js.isWhiteSpace c) eqn:W.
  - destruct H as [_ [_ H]]. rewrite (IH _ H).
    destruct s; [discriminate H|reflexivity].
  - destruct H as [_ H]. rewrite (IH _ H). destruct s; reflexivity.
Qed.

Lemma wellSpaced_toLowerCase (s : string) (b : bool) :
  wellSpaced b s -> Js.toLowerCase s = s.
Proof.
  revert b. induction s as [|c s IH]; intros b H; [reflexivity|].
  cbn [wellSpaced] in H. simpl.
  destruct (Js.isWhiteSpace c) eqn:W.
  - destruct H as [_ [_ H]]. rewrite (IH _ H), (isWhiteSpace_lower_fixed c W). reflexivity.
  - destruct H as [Hc H]. rewrite (IH _ H), Hc. reflexivity.
Qed.

Lemma wellSpaced_collapse (s : string) (b : bool) :
  wellSpaced b s -> Js.collapseFrom b s = s.
Proof.
  revert b. induction s as [|c s IH]; intros b H; [reflexivity|].
  cbn [wellSpaced] in H. cbn [Js.collapseFrom].
  destruct (Js.isWhiteSpace c) eqn:W.
  - destruct H as [-> [-> H]]. rewrite (IH _ H). reflexivity.
  - destruct H as [_ H]. rewrite (IH _ H). reflexivity.
Qed.

Lemma normalizeClassName_normalForm (className : string) :
  normalForm (normalizeClassName className).
Proof.
  unfold normalForm, normalizeClassName, Js.collapseWhiteSpace.
  rewrite <- trim_toLowerCase.
  destruct (trim_head (Js.toLowerCase className)) as [->|[c [r [E W]]]];
    [left; reflexivity|].
  right. rewrite E.
  assert (H : wellSpaced false (Js.collapseFrom false (String c r))).
  { apply collapse_wellSpaced.
    - discriminate.
    - rewrite <- E. unfold Js.trim. apply trimEnd_idem.
    - rewrite <- E. rewrite trim_toLowerCase. apply toLowerCase_idem. }
  cbn [Js.collapseFrom] in *. rewrite W in *.
  exact (wellSpaced_head_irrelevant c _ false true W H).
Qed.

Lemma normalForm_fixed (s : string) : normalForm s -> normalizeClassName s = s.
Proof.
  intros [->|H]; [reflexivity|].
  unfold normalizeClassName, Js.collapseWhiteSpace, Js.trim.
  assert (Hs : Js.trimStart s = s).
  { destruct s as [|c s']; [reflexivity|].
    cbn [wellSpaced] in H. simpl.
    destruct (Js.isWhiteSpace c); [destruct H as [_ [E _]]; discriminate|reflexivity]. }
  rewrite Hs, (wellSpaced_trimEnd _ _ H), (wellSpaced_toLowerCase _ _ H).
  destruct s as [|c s']; [reflexivity|].
  cbn [wellSpaced] in H. cbn [Js.collapseFrom].
  destruct (Js.isWhiteSpace c); [destruct H as [_ [E _]]; discriminate|].
  destruct H as [_ H]. rewrite (wellSpaced_collapse _ _ H). reflexivity.
Qed.


Lemma trim_idem (s : string) : Js.trim (Js.trim s) = Js.trim s.
Proof.
  destruct (trim_head s) as [E|[c [r [E W]]]]; rewrite E; [reflexivity|].
  unfold Js.trim at 1. simpl Js.trimStart. rewrite W.
  rewrite <- E. unfold Js.trim. apply trimEnd_idem.
Qed.

Lemma normalize_twice (className : string) :
  normalizeClassName (normalizeClassName className) = normalizeClassName className.
Proof. apply normalForm_fixed, normalizeClassName_normalForm. Qed.

(** X1.  Normalizing a class name twice gives the same string as
    normalizing it once. *)
Theorem normalizeClassName_idempotent (className : string) :
  normalizeClassName (normalizeClassName className) = normalizeClassName className.
Proof. apply normalize_twice. Qed.

Lemma toLowerChar_ascii (c : ascii) :
  (nat_of_ascii c <? 128)%nat = true ->
  (nat_of_ascii (Js.toLowerChar c) <? 128)%nat = true.
Proof.
  destruct c as [[] [] [] [] [] [] [] []]; intros H;
    try discriminate H; vm_compute; reflexivity.
Qed.

Lemma asciiOnly_toLowerCase (s : string) :
  asciiOnly s = true -> asciiOnly (Js.toLowerCase s) = true.
Proof.
  induction s as [|c s IH]; [reflexivity|].
  cbn [asciiOnly Js.toLowerCase]. rewrite !andb_true_iff. intros [Hc Hs].
  split; [apply toLowerChar_ascii, Hc|apply IH, Hs].
Qed.

Lemma asciiOnly_trimStart (s : string) :
  asciiOnly s = true -> asciiOnly (Js.trimStart s) = true.
Proof.
  induction s as [|c s IH]; [reflexivity|].
  intros H. cbn [Js.trimStart]. destruct (Js.isWhiteSpace c); [|exact H].
  cbn [asciiOnly] in H. apply andb_true_iff in H. apply IH, H.
Qed.

Lemma asciiOnly_trimEnd (s : string) :
  asciiOnly s = true -> asciiOnly (Js.trimEnd s) = true.
Proof.
  induction s as [|c s IH]; [reflexivity|].
  cbn [asciiOnly Js.trimEnd]. rewrite andb_true_iff. intros [Hc Hs].
  specialize (IH Hs).
  destruct (Js.trimEnd s) as [|d t].
  - destruct (Js.isWhiteSpace c); [reflexivity|].
    cbn [asciiOnly]. rewrite Hc. reflexivity.
  - change (asciiOnly (String c (String d t)))
      with ((nat_of_ascii c <? 128)%nat && asciiOnly (String d t)).
    rewrite Hc, IH. reflexivity.
Qed.

Lemma asciiOnly_collapseFrom (s : string) (b : bool) :
  asciiOnly s = true -> asciiOnly (Js.collapseFrom b s) = true.
Proof.
  revert b. induction s as [|c s IH]; intros b; [reflexivity|].
  cbn [asciiOnly Js.collapseFrom]. rewrite andb_true_iff. intros [Hc Hs].
  destruct (Js.isWhiteSpace c); [destruct b|].
  - apply IH, Hs.
  - cbn [asciiOnly]. rewrite (IH true Hs). reflexivity.
  - cbn [asciiOnly]. rewrite Hc, (IH false Hs). reflexivity.
Qed.

Lemma asciiOnly_normalizeClassName (className : string) :
  asciiOnly className = true -> asciiOnly (normalizeClassName className) = true.
Proof.
  intros H. unfold normalizeClassName, Js.collapseWhiteSpace, Js.trim.
  apply asciiOnly_collapseFrom, asciiOnly_toLowerCase, asciiOnly_trimEnd,
    asciiOnly_trimStart, H.
Qed.

(** X2.  Among the labels made of ASCII characters, the strings that
    [normalizeClassName] leaves unchanged are the normal forms: the empty
    string, and the strings that start and end with a character that is no
    whitespace, contain no capital, and in which every whitespace is a
    single space between two other characters.  The result of
    [normalizeClassName] on such a label is one of them. *)
Theorem normalizeClassName_fixed_points :
  (forall s, asciiOnly s = true -> (normalizeClassName s = s <-> normalForm s))
  /\ (forall className,
        asciiOnly className = true ->
        normalForm (normalizeClassName className)
        /\ asciiOnly (normalizeClassName className) = true).
Proof.
  split.
  - intros s _. split.
    + intros H. rewrite <- H. apply normalizeClassName_normalForm.
    + apply normalForm_fixed.
  - intros className H. split.
    + apply normalizeClassName_normalForm.
    + apply asciiOnly_normalizeClassName, H.
Qed.

Lemma normalizeClassName_fixed_points_witness :
  (normalizeClassName "hsn code" = "hsn code" <-> normalForm "hsn code")
  /\ normalForm (normalizeClassName "  HSN    Code ")
  /\ asciiOnly (normalizeClassName "  HSN    Code ") = true.
Proof.
  destruct normalizeClassName_fixed_points as [H1 H2].
  split.
  - apply (H1 "hsn code"). reflexivity.
  - apply (H2 "  HSN    Code "). reflexivity.
Defined.

(** X3.  Lower-casing or trimming a label before it is normalized changes
    nothing, and the three classifiers give the same answer on a label and
    on its normalized form. *)
Theorem classification_ignores_case_and_spacing (className : string) :
  normalizeClassName (Js.toLowerCase className) = normalizeClassName className
  /\ normalizeClassName (Js.trim className) = normalizeClassName className
  /\ isAnchorClass (normalizeClassName className) = isAnchorClass className
  /\ getFieldName (normalizeClassName className) = getFieldName className
  /\ (forall field,
        matchesMetadataField (normalizeClassName className) field
        = matchesMetadataField className field).
Proof.
  split; [|split; [|split; [|split]]].
  - unfold normalizeClassName. rewrite trim_toLowerCase, toLowerCase_idem. reflexivity.
  - unfold normalizeClassName. rewrite trim_idem. reflexivity.
  - unfold isAnchorClass. rewrite normalize_twice. reflexivity.
  - unfold getFieldName. rewrite normalize_twice. reflexivity.
  - intros field. unfold matchesMetadataField.
    rewrite normalize_twice. reflexivity.
Qed.

(** X4.  Of the ten tests of [isAnchorClass] five decide: a label is an
    anchor label exactly when its normalized form is "item" or "product",
    contains "med name" or "medicine", or starts with "med".  The
    comparisons with "med name", "medname", "medicine name", "medicine"
    and "med" never add a label. *)
Theorem isAnchorClass_decisive_tests (className : string) :
  let normalized := normalizeClassName className in
  isAnchorClass className
  = String.eqb normalized "item"
    || String.eqb normalized "product"
    || Js.includes normalized "med name"
    || Js.includes normalized "medicine"
    || Js.startsWith normalized "med".
Proof.
  intros normalized. unfold isAnchorClass. fold normalized.
  destruct (String.eqb_spec normalized "med name") as [->|_]; [reflexivity|].
  destruct (String.eqb_spec normalized "medname") as [->|_]; [reflexivity|].
  destruct (String.eqb_spec normalized "medicine name") as [->|_]; [reflexivity|].
  destruct (String.eqb_spec normalized "medicine") as [->|_]; [reflexivity|].
  destruct (String.eqb_spec normalized "med") as [->|_]; [reflexivity|].
  reflexivity.
Qed.

(** X5.  The exact-match table of [getFieldName] never decides: the
    result is the one of the substring tests alone, taken in their order
    (medicine name, batch, quantity, HSN code, amount). *)
Theorem getFieldName_by_substrings (className : string) :
  let normalized := normalizeClassName className in
  getFieldName className
  = if Js.includes normalized "med name" || Js.includes normalized "medname"
       || Js.includes normalized "medicine name" then Some MedName
    else if Js.includes normalized "batch exp"
            || Js.includes normalized "batchexp" then Some BatchExp
    else if Js.includes normalized "quantity"
            || String.eqb normalized "qty" then Some Quantity
    else if Js.includes normalized "hsn code"
            || Js.includes normalized "hsncode" then Some HsnCode
    else if Js.includes normalized "amount"
            || Js.includes normalized "price" then Some Amount
    else None.
Proof.
  intros normalized. unfold getFieldName. fold normalized.
  cbn [find FIELD_MAPPING fst].
  change (normalizeClassName "Med Name") with "med name".
  change (normalizeClassName "Batch Exp") with "batch exp".
  change (normalizeClassName "Quantity") with "quantity".
  change (normalizeClassName "HSN Code") with "hsn code".
  change (normalizeClassName "Amount") with "amount".
  destruct (String.eqb_spec "med name" normalized) as [<-|_]; [reflexivity|].
  destruct (String.eqb_spec "batch exp" normalized) as [<-|_]; [reflexivity|].
  destruct (String.eqb_spec "quantity" normalized) as [<-|_]; [reflexivity|].
  destruct (String.eqb_spec "hsn code" normalized) as [<-|_]; [reflexivity|].
  destruct (String.eqb_spec "amount" normalized) as [<-|_]; [reflexivity|].
  reflexivity.
Qed.

(** ** The grouping engine *)

Lemma findNearestAnchor_cases (p : Prediction) (anchors : list Prediction) :
  (findNearestAnchor p anchors = None <-> anchors = [])
  /\ (forall i, findNearestAnchor p anchors = Some i ->
                exists a, nth_error anchors i = Some a).
Proof.
  destruct anchors as [|a l].
  - split; [split; reflexivity|]. intros i H. discriminate.
  - destruct (nearestAfter_state p (a :: l)) as [i [b [Hi Hst]]]; [discriminate|].
    assert (Hf : findNearestAnchor p (a :: l) = Some i).
    { unfold findNearestAnchor. fold (nearestAfter p (a :: l)). rewrite Hst. reflexivity. }
    split.
    + rewrite Hf. split; discriminate.
    + intros j Hj. rewrite Hf in Hj. injection Hj as <-. exists b. exact Hi.
Qed.

(** X6.  [findNearestAnchor] returns [null] exactly when there is no
    anchor; otherwise it returns an anchor of the array, whatever the order
    of the anchors. *)
Theorem findNearestAnchor_total (p : Prediction) (anchors : list Prediction) :
  (findNearestAnchor p anchors = None <-> anchors = [])
  /\ (forall i, findNearestAnchor p anchors = Some i ->
                exists a, nth_error anchors i = Some a).
Proof. apply findNearestAnchor_cases. Qed.

Lemma findNearestAnchor_total_witness :
  exists a, nth_error [det "Med Name" (box 100 0) 1 None;
                       det "Med Name" (box 140 0) 1 None] 1 = Some a.
Proof.
  apply (proj2 (findNearestAnchor_total (det "Amount" (box 139 0) 1 None)
                  [det "Med Name" (box 100 0) 1 None;
                   det "Med Name" (box 140 0) 1 None]) 1).
  vm_compute. reflexivity.
Defined.

Lemma filter_split_by_key {A : Type} (key : A -> nat) (n : nat) (l : list A) :
  Permutation (filter (fun a => Nat.ltb (key a) (S n)) l)
              (filter (fun a => Nat.ltb (key a) (n)) l ++ filter (fun a => Nat.eqb (key a) n) l).
Proof.
  induction l as [|a l IH]; simpl; [apply perm_nil|].
  destruct (Nat.ltb_spec (key a) n) as [Hlt|Hge].
  - assert (Nat.ltb (key a) (S n) = true) as -> by (apply Nat.ltb_lt; lia).
    assert (Nat.eqb (key a) n = false) as -> by (apply Nat.eqb_neq; lia).
    simpl. apply perm_skip, IH.
  - destruct (Nat.eqb_spec (key a) n) as [He|Hne].
    + assert (Nat.ltb (key a) (S n) = true) as -> by (apply Nat.ltb_lt; lia).
      apply Permutation_cons_app, IH.
    + assert (Nat.ltb (key a) (S n) = false) as -> by (apply Nat.ltb_ge; lia).
      exact IH.
Qed.

(** Grouping a list by a key below [n] loses and repeats nothing. *)
Lemma groups_by_key_perm {A : Type} (key : A -> nat) (n : nat) (l : list A) :
  Permutation (flat_map (fun i => filter (fun a => Nat.eqb (key a) i) l) (seq 0 n))
              (filter (fun a => Nat.ltb (key a) (n)) l).
Proof.
  induction n as [|n IH].
  - simpl. induction l as [|a l IHl]; simpl; [apply perm_nil|exact IHl].
  - rewrite seq_S, flat_map_app. simpl flat_map. rewrite app_nil_r.
    apply Permutation_sym.
    apply perm_trans with (1 := filter_split_by_key key n l).
    apply Permutation_app_tail, Permutation_sym, IH.
Qed.

(** X7.  With at least one anchor, the groups of the anchors hold every
    non-anchor detection exactly once: put one after the other they are a
    permutation of the non-anchors. *)
Theorem groups_partition_nonAnchors (predictions : list Prediction) :
  filter isAnchor predictions <> [] ->
  let anchors := Js.sort compareAnchors (filter isAnchor predictions) in
  let nonAnchors := filter isNonAnchor predictions in
  Permutation (flat_map (assignedTo anchors nonAnchors) (seq 0 (List.length anchors)))
              nonAnchors.
Proof.
  intros Ha anchors nonAnchors.
  set (n := List.length anchors).
  set (key := fun p => match findNearestAnchor p anchors with
                       | Some j => j
                       | None => n
                       end).
  assert (Hkey : forall p, key p < n).
  { intros p. unfold key.
    destruct (findNearestAnchor p anchors) as [j|] eqn:E.
    - destruct (proj2 (findNearestAnchor_cases p anchors) j E) as [a Hj].
      apply nth_error_Some. congruence.
    - apply (proj1 (findNearestAnchor_cases p anchors)) in E.
      exfalso. apply (sort_not_nil compareAnchors _ Ha). exact E. }
  assert (Hall : filter (fun p => Nat.ltb (key p) n) nonAnchors = nonAnchors).
  { apply forallb_filter_id. apply forallb_forall. intros p _.
    apply Nat.ltb_lt, Hkey. }
  rewrite <- Hall at 2. rewrite <- (groups_by_key_perm key n nonAnchors).
  assert (Hext : forall i, assignedTo anchors nonAnchors i
                           = filter (fun a => Nat.eqb (key a) i) nonAnchors).
  { intros i. unfold assignedTo. apply filter_ext. intros p.
    specialize (Hkey p). unfold key in *.
    destruct (findNearestAnchor p anchors); [reflexivity|lia]. }
  rewrite (flat_map_ext _ _ Hext). apply Permutation_refl.
Qed.

Lemma groups_partition_nonAnchors_witness :
  Permutation
    (flat_map (assignedTo (Js.sort compareAnchors (filter isAnchor tieExample))
                          (filter isNonAnchor tieExample))
              (seq 0 (List.length (Js.sort compareAnchors (filter isAnchor tieExample)))))
    (filter isNonAnchor tieExample).
Proof.
  apply (groups_partition_nonAnchors tieExample). vm_compute. discriminate.
Defined.

(** X8.  With at least one anchor [groupByRowCaptain] does not raise and
    returns as many rows as there are anchors; the names of the rows are
    the placeholders "Medicine 1" to "Medicine n", each borne by one
    row. *)
Theorem normal_path_rows (predictions : list Prediction) :
  filter isAnchor predictions <> [] ->
  exists rows,
    groupByRowCaptain predictions = Ok rows
    /\ List.length rows = List.length (filter isAnchor predictions)
    /\ Permutation (map medName rows)
         (map (fun i => Some (placeholderName i))
              (seq 0 (List.length (filter isAnchor predictions)))).
Proof.
  intros Ha. rewrite (groupByRowCaptain_normal _ Ha). cbv zeta.
  eexists. split; [reflexivity|]. split.
  - rewrite sort_length, length_map, length_seq, sort_length. reflexivity.
  - eapply perm_trans.
    + apply Permutation_map, sort_perm.
    + rewrite map_map, sort_length.
      erewrite map_ext; [apply Permutation_refl|].
      intros i. apply medName_filledRow.
Qed.

Lemma normal_path_rows_witness :
  exists rows,
    groupByRowCaptain swappedLabels = Ok rows
    /\ List.length rows = List.length (filter isAnchor swappedLabels)
    /\ Permutation (map medName rows)
         (map (fun i => Some (placeholderName i))
              (seq 0 (List.length (filter isAnchor swappedLabels)))).
Proof. apply (normal_path_rows swappedLabels). vm_compute. discriminate. Defined.

(** X9.  When no detection is labelled like a placeholder name
    ("Medicine 1", "Medicine 2", ...), the rows are returned in the order
    of the anchors sorted by vertical center: the row at position [i] is
    the row filled for the anchor at position [i]. *)
Theorem rows_follow_anchor_order (predictions : list Prediction) :
  filter isAnchor predictions <> [] ->
  (forall a i, In a predictions -> class a <> Some (placeholderName i)) ->
  let anchors := Js.sort compareAnchors (filter isAnchor predictions) in
  let nonAnchors := filter isNonAnchor predictions in
  StronglySorted (fun a b => (center a <= center b)%Q) anchors
  /\ exists rows,
       groupByRowCaptain predictions = Ok rows
       /\ filledRows anchors nonAnchors = Ok rows
       /\ (forall i row, nth_error rows i = Some row ->
                         medName row = Some (placeholderName i)).
Proof.
  intros Ha Hlab anchors nonAnchors. split; [apply sorted_anchors|].
  exists (map (filledRow anchors nonAnchors) (seq 0 (List.length anchors))).
  split; [apply (rows_in_anchor_order predictions Ha Hlab)|].
  split; [apply filledRows_ok|].
  intros i row H. rewrite nth_error_map in H.
  destruct (nth_error (seq 0 (List.length anchors)) i) as [j|] eqn:E; [|discriminate].
  assert (Hi : i < List.length (seq 0 (List.length anchors)))
    by (apply nth_error_Some; congruence).
  rewrite length_seq in Hi.
  rewrite nth_error_nth' with (d := 0) in E by (rewrite length_seq; exact Hi).
  rewrite seq_nth in E by exact Hi. simpl in E, H.
  injection E as <-. injection H as <-. apply medName_filledRow.
Qed.

Lemma placeholderName_prefix (i : nat) :
  String.prefix "Medicine " (placeholderName i) = true.
Proof.
  unfold placeholderName. generalize (Js.numberToString (i + 1)). intros s.
  destruct s; reflexivity.
Qed.

Lemma rows_follow_anchor_order_witness :
  StronglySorted (fun a b => (center a <= center b)%Q)
                 (Js.sort compareAnchors (filter isAnchor tieExample))
  /\ exists rows,
       groupByRowCaptain tieExample = Ok rows
       /\ filledRows (Js.sort compareAnchors (filter isAnchor tieExample))
                     (filter isNonAnchor tieExample) = Ok rows
       /\ (forall i row, nth_error rows i = Some row ->
                         medName row = Some (placeholderName i)).
Proof.
  apply (rows_follow_anchor_order tieExample).
  - vm_compute. discriminate.
  - intros a i Hin Hc.
    pose proof (placeholderName_prefix i) as Hp.
    simpl in Hin. destruct Hin as [<-|[<-|[<-|[]]]];
      cbn [class det] in Hc;
      match type of Hc with
      | Some ?c = _ =>
          assert (Hq : placeholderName i = c) by congruence;
          rewrite Hq in Hp; vm_compute in Hp; discriminate Hp
      end.
Defined.

(** X10.  With at least one anchor, the detections whose class is missing
    or empty do not count: the result is that of the input without
    them. *)
Theorem unlabelled_ignored_with_anchor (predictions : list Prediction) :
  filter isAnchor predictions <> [] ->
  groupByRowCaptain predictions
  = groupByRowCaptain (filter (fun p => Js.truthy (class p)) predictions).
Proof. apply missing_class_skipped_normal. Qed.

Lemma unlabelled_ignored_with_anchor_witness :
  groupByRowCaptain (unlabelled :: tieExample)
  = groupByRowCaptain (filter (fun p => Js.truthy (class p)) (unlabelled :: tieExample)).
Proof.
  apply (unlabelled_ignored_with_anchor (unlabelled :: tieExample)).
  vm_compute. discriminate.
Defined.

Lemma fallback_raises (l : list Prediction) (row : Row) :
  (exists p, In p l /\ class p = None) ->
  foldM fallbackStep l row = Throw TypeError.
Proof.
  revert row. induction l as [|a l IH]; intros row [p [Hin Hc]]; [contradiction|].
  simpl. unfold fallbackStep at 1.
  destruct (class a) as [c|] eqn:Ea.
  - destruct Hin as [<-|Hin]; [congruence|].
    simpl. destruct (getFieldName c) as [f|]; [destruct (getField f row)|];
      simpl; apply IH; exists p; auto.
  - reflexivity.
Qed.

Lemma groupByRowCaptain_raises_when (predictions : list Prediction) :
  groupByRowCaptain predictions = Throw TypeError
  <-> filter isAnchor predictions = []
      /\ exists p, In p predictions /\ class p = None.
Proof.
  destruct (filter isAnchor predictions) as [|a l] eqn:Ea.
  - destruct (existsb (fun p => match class p with None => true | Some _ => false end)
                      predictions) eqn:Ex.
    + apply existsb_exists in Ex. destruct Ex as [p [Hin Hc]].
      assert (Hp : exists p, In p predictions /\ class p = None).
      { exists p. split; [exact Hin|]. destruct (class p); [discriminate|reflexivity]. }
      assert (Hr : groupByRowCaptain predictions = Throw TypeError).
      { unfold groupByRowCaptain. destruct predictions as [|q qs]; [contradiction|].
        rewrite Ea, (fallback_raises _ _ Hp). reflexivity. }
      rewrite Hr. split; auto.
    + assert (Hc : forall p, In p predictions -> class p <> None).
      { intros p Hin Hn.
        assert (existsb (fun p => match class p with None => true | Some _ => false end)
                        predictions = true).
        { apply existsb_exists. exists p. rewrite Hn. auto. }
        congruence. }
      assert (Hr : exists rows, groupByRowCaptain predictions = Ok rows).
      { destruct predictions as [|q qs]; [exists []; reflexivity|].
        rewrite fallback_row; [eexists; reflexivity|discriminate|exact Ea|exact Hc]. }
      destruct Hr as [rows Hr]. rewrite Hr. split; [discriminate|].
      intros [_ [p [Hin Hn]]]. exfalso. apply (Hc p Hin Hn).
  - assert (Ha : filter isAnchor predictions <> []) by (rewrite Ea; discriminate).
    rewrite (groupByRowCaptain_normal _ Ha). cbv zeta.
    split; [discriminate|]. intros [H _]. discriminate.
Qed.

(** X11.  [groupByRowCaptain] raises, a TypeError, exactly when the input
    has no anchor and contains a detection without class. *)
Theorem groupByRowCaptain_raises_iff (predictions : list Prediction) :
  groupByRowCaptain predictions = Throw TypeError
  <-> filter isAnchor predictions = []
      /\ exists p, In p predictions /\ class p = None.
Proof. apply groupByRowCaptain_raises_when. Qed.

Lemma groupByRowCaptain_raises_iff_witness :
  groupByRowCaptain [quantityOnly; unlabelled] = Throw TypeError.
Proof.
  apply (proj2 (groupByRowCaptain_raises_iff [quantityOnly; unlabelled])).
  split; [reflexivity|].
  exists unlabelled. split; [right; left; reflexivity|reflexivity].
Defined.

(** X12.  Without anchor and with a class on every detection, the single
    row that is returned holds, in each slot, the class label of the first
    detection of the input that is classified into the slot, and [null]
    when there is none. *)
Theorem fallback_row_first_writer (predictions : list Prediction) :
  predictions <> [] ->
  filter isAnchor predictions = [] ->
  (forall p, In p predictions -> class p <> None) ->
  exists row,
    groupByRowCaptain predictions = Ok [row]
    /\ forall f, getField f row
                 = match find (classifiedAs f) predictions with
                   | Some p => class p
                   | None => None
                   end.
Proof.
  intros Hne Ha Hc. rewrite (fallback_row _ Hne Ha Hc).
  eexists. split; [reflexivity|].
  intros f. rewrite fallback_first_writer. destruct f; reflexivity.
Qed.

Lemma fallback_row_first_writer_witness :
  exists row,
    groupByRowCaptain [quantityOnly; det "Qty" (box 9 0) 1 None] = Ok [row]
    /\ forall f, getField f row
                 = match find (classifiedAs f)
                              [quantityOnly; det "Qty" (box 9 0) 1 None] with
                   | Some p => class p
                   | None => None
                   end.
Proof.
  apply (fallback_row_first_writer [quantityOnly; det "Qty" (box 9 0) 1 None]).
  - discriminate.
  - reflexivity.
  - intros p [<-|[<-|[]]]; discriminate.
Defined.

Lemma winner_none (l : list Prediction) : winner l = None <-> l = [].
Proof.
  unfold winner. split.
  - intros H. destruct l as [|a l]; [reflexivity|].
    destruct (Js.sort compareCandidates (a :: l)) as [|b s] eqn:E; [|discriminate].
    exfalso. apply (sort_not_nil compareCandidates (a :: l)); [discriminate|exact E].
  - intros ->. reflexivity.
Qed.

Lemma winner_in (l : list Prediction) (p : Prediction) :
  winner l = Some p -> In p l.
Proof.
  unfold winner. intros H.
  destruct (Js.sort compareCandidates l) as [|b s] eqn:E; [discriminate|].
  injection H as ->. apply (sort_in compareCandidates). rewrite E. left. reflexivity.
Qed.

Lemma candidatesOf_classify (l : list Prediction) (f : FieldName) :
  candidatesOf (classify l) f = filter (classifiedAs f) l.
Proof.
  unfold candidatesOf, classify.
  induction l as [|a l IH]; [reflexivity|].
  cbn [map filter fst].
  assert (Hhead : classifiedAs f a
                  = match getFieldName (Js.orEmpty (class a)) with
                    | Some g => FieldName_eqb g f
                    | None => false
                    end).
  { unfold classifiedAs. destruct (class a); reflexivity. }
  rewrite Hhead.
  destruct (getFieldName (Js.orEmpty (class a))) as [g|];
    [destruct (FieldName_eqb g f)|]; cbn [map snd]; rewrite ?IH; reflexivity.
Qed.

Lemma fieldValue_some (f : FieldName) (p : Prediction) :
  class p <> None -> fieldValue f p <> None.
Proof.
  intros Hc. unfold fieldValue.
  destruct (value p) as [[|c v]|]; simpl; destruct f; try discriminate; exact Hc.
Qed.

(** X13.  In the row of an anchor, a slot other than the name is filled
    exactly when some detection assigned to the anchor is classified into
    the slot; the value then comes from such a detection, the winner. *)
Theorem slot_filled_iff_candidate (predictions anchors : list Prediction)
  (filled : list Row) (i : nat) (row : Row) (f : FieldName) :
  filledRows anchors (filter isNonAnchor predictions) = Ok filled ->
  nth_error filled i = Some row ->
  f <> MedName ->
  let assigned := assignedTo anchors (filter isNonAnchor predictions) i in
  (getField f row = None <-> forall p, In p assigned -> classifiedAs f p = false)
  /\ (forall v, getField f row = Some v ->
        exists p, In p assigned /\ classifiedAs f p = true
                  /\ winner (filter (classifiedAs f) assigned) = Some p
                  /\ fieldValue f p = Some v).
Proof.
  intros Hfilled Hnth Hf assigned.
  rewrite filledRows_ok in Hfilled. injection Hfilled as <-.
  rewrite nth_error_map in Hnth.
  destruct (nth_error (seq 0 (List.length anchors)) i) as [j|] eqn:E; [|discriminate].
  assert (Hi : i < List.length (seq 0 (List.length anchors)))
    by (apply nth_error_Some; congruence).
  rewrite length_seq in Hi.
  rewrite nth_error_nth' with (d := 0) in E by (rewrite length_seq; exact Hi).
  rewrite seq_nth in E by exact Hi. simpl in E, Hnth.
  injection E as <-. injection Hnth as <-.
  unfold filledRow. fold assigned.
  rewrite getField_fillRow by exact Hf.
  assert (Hrow : getField f (assignField (classify assigned) (newRow i) f)
                 = match winner (filter (classifiedAs f) assigned) with
                   | Some p => fieldValue f p
                   | None => None
                   end).
  { rewrite <- candidatesOf_classify.
    destruct f; try (contradiction Hf; reflexivity); unfold assignField;
      destruct (winner _); reflexivity. }
  rewrite Hrow.
  destruct (winner (filter (classifiedAs f) assigned)) as [p|] eqn:Ew.
  - pose proof (winner_in _ _ Ew) as Hin. apply filter_In in Hin.
    destruct Hin as [Hin Hcl].
    assert (Hc : class p <> None).
    { unfold assigned in Hin. apply assignedTo_in in Hin. destruct Hin as [Hin _].
      apply filter_In in Hin. apply isNonAnchor_class, Hin. }
    split.
    + split.
      * intros H. exfalso. apply (fieldValue_some f p Hc H).
      * intros H. rewrite (H p Hin) in Hcl. discriminate.
    + intros v Hv. exists p. auto.
  - apply winner_none in Ew. split.
    + split; [|reflexivity]. intros _ p Hin.
      destruct (classifiedAs f p) eqn:Hcl; [|reflexivity].
      assert (In p (filter (classifiedAs f) assigned))
        by (apply filter_In; split; assumption).
      rewrite Ew in H. contradiction.
    + intros v Hv. discriminate.
Qed.

Lemma slot_filled_iff_candidate_witness :
  (getField Quantity (mkRow (Some "Medicine 1") None (Some "1") None None) = None
   <-> forall p,
         In p (assignedTo (Js.sort compareAnchors (filter isAnchor tieExample))
                          (filter isNonAnchor tieExample) 0) ->
         classifiedAs Quantity p = false)
  /\ (forall v,
        getField Quantity (mkRow (Some "Medicine 1") None (Some "1") None None) = Some v ->
        exists p,
          In p (assignedTo (Js.sort compareAnchors (filter isAnchor tieExample))
                           (filter isNonAnchor tieExample) 0)
          /\ classifiedAs Quantity p = true
          /\ winner (filter (classifiedAs Quantity)
                       (assignedTo (Js.sort compareAnchors (filter isAnchor tieExample))
                                   (filter isNonAnchor tieExample) 0)) = Some p
          /\ fieldValue Quantity p = Some v).
Proof.
  apply (slot_filled_iff_candidate tieExample
           (Js.sort compareAnchors (filter isAnchor tieExample))
           [mkRow (Some "Medicine 1") None (Some "1") None None;
            mkRow (Some "Medicine 2") None None None None] 0).
  - vm_compute. reflexivity.
  - reflexivity.
  - discriminate.
Defined.

(** ** Metadata, filter and assembly *)

Section SortFilter.
Context {A : Type} (compareFn : A -> A -> Q) (R : A -> A -> Prop).
Hypothesis R_trans : forall a b c, R a b -> R b c -> R a c.
Hypothesis R_total : forall a b, R a b \/ R b a.
Hypothesis compare_iff : forall a b, Qle_bool (compareFn a b) 0%Q = true <-> R a b.

Lemma compare_gt_R (a b : A) : Qle_bool (compareFn a b) 0%Q = false -> R b a.
Proof.
  intros H. destruct (R_total a b) as [Hab|Hba]; [|exact Hba].
  apply compare_iff in Hab. congruence.
Qed.

Lemma insert_below_all (a : A) (l : list A) :
  (forall b, In b l -> R a b) -> Js.insert compareFn a l = a :: l.
Proof.
  intros H. destruct l as [|b l]; [reflexivity|]. simpl.
  rewrite (proj2 (compare_iff a b)); [reflexivity|]. apply H. left. reflexivity.
Qed.

Lemma insert_filter (keep : A -> bool) (a : A) (l : list A) :
  StronglySorted R l ->
  filter keep (Js.insert compareFn a l)
  = if keep a then Js.insert compareFn a (filter keep l) else filter keep l.
Proof.
  induction 1 as [|b l Hs IH Hb]; simpl.
  - destruct (keep a); reflexivity.
  - destruct (Qle_bool (compareFn a b) 0%Q) eqn:E.
    + cbn [filter]. destruct (keep a) eqn:Ka; [|reflexivity].
      destruct (keep b) eqn:Kb.
      * simpl. rewrite E. reflexivity.
      * rewrite insert_below_all; [reflexivity|].
        intros c Hc. apply filter_In in Hc. destruct Hc as [Hc _].
        apply R_trans with b; [apply compare_iff, E|].
        rewrite Forall_forall in Hb. apply Hb, Hc.
    + cbn [filter]. rewrite IH.
      destruct (keep b) eqn:Kb; destruct (keep a) eqn:Ka; try reflexivity.
      simpl. rewrite E. reflexivity.
Qed.

Lemma sort_filter (keep : A -> bool) (l : list A) :
  filter keep (Js.sort compareFn l) = Js.sort compareFn (filter keep l).
Proof.
  induction l as [|a l IH]; [reflexivity|].
  simpl Js.sort. rewrite insert_filter.
  - cbn [filter]. destruct (keep a); simpl; rewrite IH; reflexivity.
  - apply sort_sorted.
    + exact R_trans.
    + intros x z. apply compare_iff.
    + exact compare_gt_R.
Qed.

(** Two sorted arrangements of the same elements are equal when [R] orders
    the elements strictly. *)
Lemma sorted_perm_unique (l1 l2 : list A) :
  StronglySorted R l1 -> StronglySorted R l2 -> Permutation l1 l2 ->
  (forall a b, In a l1 -> In b l1 -> R a b -> R b a -> a = b) ->
  l1 = l2.
Proof.
  intros H1. revert l2. induction H1 as [|a l1 Hs1 IH Ha]; intros l2 H2 Hp Hanti.
  - apply Permutation_nil in Hp. symmetry. exact Hp.
  - destruct H2 as [|b l2 Hs2 Hb].
    + apply Permutation_sym, Permutation_nil in Hp. discriminate.
    + assert (Hab : a = b).
      { assert (Hain : In a (b :: l2)) by (apply (Permutation_in _ Hp); left; reflexivity).
        assert (Hbin : In b (a :: l1))
          by (apply (Permutation_in _ (Permutation_sym Hp)); left; reflexivity).
        destruct Hain as [->|Hain]; [reflexivity|].
        destruct Hbin as [->|Hbin]; [reflexivity|].
        rewrite Forall_forall in Ha, Hb.
        apply Hanti; [left; reflexivity|right; exact Hbin|apply Ha, Hbin|apply Hb, Hain]. }
      subst b. f_equal. apply IH.
      * exact Hs2.
      * apply Permutation_cons_inv with a, Hp.
      * intros x z Hx Hz. apply Hanti; right; assumption.
Qed.
End SortFilter.

Lemma compareConfidence_iff (a b : Prediction) :
  Qle_bool (compareConfidence a b) 0%Q = true <-> (confidence b <= confidence a)%Q.
Proof.
  rewrite Qle_bool_iff. unfold compareConfidence. split; intros H; lra.
Qed.

Lemma kept_leaves_metadata (m : BillMetadata) (p : Prediction) :
  keepMedicine p = true -> metadataStep m p = m.
Proof.
  unfold keepMedicine, metadataStep.
  destruct (isMedicineRelated (normalizeClassName (Js.orEmpty (class p)))); [reflexivity|].
  destruct (existsb _ metadataKeys) eqn:Ex; [discriminate|]. intros _.
  destruct (firstMatch m (Js.orEmpty (class p))) as [f|] eqn:Ef; [|reflexivity].
  exfalso. apply firstMatch_some in Ef. destruct Ef as [_ Hm].
  assert (existsb (fun field => Js.includesSome
                                  (normalizeClassName (Js.orEmpty (class p)))
                                  (METADATA_CLASSES field)) metadataKeys = true).
  { apply existsb_exists. exists f. split; [apply in_metadataKeys|exact Hm]. }
  congruence.
Qed.

Lemma scan_without_kept (l : list Prediction) (m : BillMetadata) :
  fold_left metadataStep (filter (fun p => negb (keepMedicine p)) l) m
  = fold_left metadataStep l m.
Proof.
  revert m. induction l as [|a l IH]; intros m; [reflexivity|].
  cbn [filter fold_left].
  destruct (keepMedicine a) eqn:K; simpl.
  - rewrite (kept_leaves_metadata m a K). apply IH.
  - apply IH.
Qed.

(** X14.  The metadata are those of the detections that the filter drops:
    the detections kept for the rows can be removed from the input of
    [extractMetadata] without changing its result. *)
Theorem metadata_from_dropped_only (predictions : list Prediction) :
  extractMetadata predictions
  = extractMetadata (filter (fun p => negb (keepMedicine p)) predictions).
Proof.
  unfold extractMetadata.
  rewrite <- (sort_filter compareConfidence
                (fun a b => (confidence b <= confidence a)%Q)).
  - symmetry. apply scan_without_kept.
  - intros a b c Hab Hbc. eapply Qle_trans; eassumption.
  - intros a b. destruct (Qlt_le_dec (confidence a) (confidence b)) as [H|H].
    + right. apply Qlt_le_weak, H.
    + left. exact H.
  - apply compareConfidence_iff.
Qed.

(** X15.  The result of [extractMetadata] does not depend on the order of
    the detections when no two different detections have the same
    confidence. *)
Theorem metadata_order_independent (l1 l2 : list Prediction) :
  Permutation l1 l2 ->
  (forall a b, In a l1 -> In b l1 -> (confidence a == confidence b)%Q -> a = b) ->
  extractMetadata l1 = extractMetadata l2.
Proof.
  intros Hp Hd. unfold extractMetadata. f_equal.
  apply (sorted_perm_unique (fun a b => (confidence b <= confidence a)%Q)).
  - apply sorted_by_confidence.
  - apply sorted_by_confidence.
  - apply perm_trans with l1; [apply sort_perm|].
    apply perm_trans with l2; [exact Hp|apply Permutation_sym, sort_perm].
  - intros a b Ha Hb Hab Hba. apply Hd.
    + apply (sort_in compareConfidence), Ha.
    + apply (sort_in compareConfidence), Hb.
    + apply Qle_antisym; assumption.
Qed.

Lemma metadata_order_independent_witness :
  extractMetadata metaExample = extractMetadata (rev metaExample).
Proof.
  apply (metadata_order_independent metaExample (rev metaExample)).
  - apply Permutation_rev.
  - intros a b Ha Hb.
    simpl in Ha, Hb.
    destruct Ha as [<-|[<-|[<-|[]]]]; destruct Hb as [<-|[<-|[<-|[]]]];
      intros H; try reflexivity; vm_compute in H; discriminate H.
Defined.

(** X16.  A detection whose label normalizes to "medname" or to
    "medicine name" is an anchor for [groupByRowCaptain] and a medicine name
    for [getFieldName], but it never reaches them through
    [extractBillData]: the filter drops it, because its label contains the
    customer pattern "name" and none of the five medicine patterns, and the
    metadata scan takes it for the customer name. *)
Theorem name_anchor_labels_dropped (p : Prediction) (c : string) :
  class p = Some c ->
  normalizeClassName c = "medname" \/ normalizeClassName c = "medicine name" ->
  isAnchor p = true
  /\ getFieldName c = Some MedName
  /\ keepMedicine p = false
  /\ (forall predictions, ~ In p (filterMedicinePredictions predictions))
  /\ customerName (metadataStep emptyMetadata p) = Some c.
Proof.
  intros Hc Hn.
  assert (Hne : c <> "") by (intros ->; destruct Hn as [H|H]; discriminate H).
  assert (Ha : isAnchorClass c = true)
    by (unfold isAnchorClass; destruct Hn as [-> | ->]; reflexivity).
  assert (Hf : getFieldName c = Some MedName)
    by (unfold getFieldName; destruct Hn as [-> | ->]; reflexivity).
  assert (Hk : keepMedicine p = false)
    by (unfold keepMedicine; rewrite Hc; simpl Js.orEmpty;
        destruct Hn as [-> | ->]; reflexivity).
  split; [|split; [exact Hf|split; [exact Hk|split]]].
  - unfold isAnchor. rewrite Hc, Ha. destruct c; [contradiction Hne|]; reflexivity.
  - intros predictions Hin. apply filter_In in Hin. destruct Hin as [_ Hin]. congruence.
  - unfold metadataStep, firstMatch, matchesMetadataField. rewrite Hc. simpl Js.orEmpty.
    destruct Hn as [-> | ->]; reflexivity.
Qed.

Lemma name_anchor_labels_dropped_witness :
  isAnchor (det " MedName " (box 100 0) 1 None) = true
  /\ getFieldName " MedName " = Some MedName
  /\ keepMedicine (det " MedName " (box 100 0) 1 None) = false
  /\ (forall predictions,
        ~ In (det " MedName " (box 100 0) 1 None) (filterMedicinePredictions predictions))
  /\ customerName (metadataStep emptyMetadata (det " MedName " (box 100 0) 1 None))
     = Some " MedName ".
Proof.
  apply (name_anchor_labels_dropped (det " MedName " (box 100 0) 1 None) " MedName ").
  - reflexivity.
  - left. reflexivity.
Defined.

Lemma normal_rows_named (predictions : list Prediction) :
  filter isAnchor predictions <> [] ->
  exists rows,
    groupByRowCaptain predictions = Ok rows
    /\ List.length rows = List.length (filter isAnchor predictions)
    /\ forall row, In row rows ->
         exists i, medName row = Some (placeholderName i).
Proof.
  intros Ha. rewrite (groupByRowCaptain_normal _ Ha). cbv zeta.
  eexists. split; [reflexivity|]. split.
  - rewrite sort_length, length_map, length_seq, sort_length. reflexivity.
  - intros row Hin. apply sort_in in Hin. apply in_map_iff in Hin.
    destruct Hin as [i [<- _]]. exists i. apply medName_filledRow.
Qed.

Lemma filter_all {A : Type} (f : A -> bool) (l : list A) :
  (forall a, In a l -> f a = true) -> filter f l = l.
Proof.
  intros H. apply forallb_filter_id. apply forallb_forall. exact H.
Qed.

(** X17.  When an anchor survives the filter, [extractBillData] does not
    raise, drops no row and returns one medicine per surviving anchor;
    [totalMedicines] is their number. *)
Theorem one_medicine_per_surviving_anchor (predictions : list RawPrediction) :
  let all := convertToBboxFormat predictions in
  let medicine := filterMedicinePredictions all in
  filter isAnchor medicine <> [] ->
  exists rows,
    groupByRowCaptain medicine = Ok rows
    /\ extractBillData predictions
       = Ok (mkExtracted rows (extractMetadata all)
                         (List.length (filter isAnchor medicine))).
Proof.
  intros all medicine Ha.
  destruct (normal_rows_named medicine Ha) as [rows [Hr [Hlen Hnamed]]].
  exists rows. split; [exact Hr|].
  unfold extractBillData. fold all medicine. rewrite Hr. simpl bind.
  rewrite filter_all, Hlen; [reflexivity|].
  intros row Hin. destruct (Hnamed row Hin) as [i Hi].
  unfold hasName. rewrite Hi. reflexivity.
Qed.

Lemma one_medicine_per_surviving_anchor_witness :
  exists rows,
    groupByRowCaptain (filterMedicinePredictions (convertToBboxFormat billExample))
    = Ok rows
    /\ extractBillData billExample
       = Ok (mkExtracted rows (extractMetadata (convertToBboxFormat billExample))
               (List.length (filter isAnchor
                  (filterMedicinePredictions (convertToBboxFormat billExample))))).
Proof.
  apply (one_medicine_per_surviving_anchor billExample). vm_compute. discriminate.
Defined.

(** X18.  [extractBillData] raises exactly when no anchor survives the
    filter and some input record has no class. *)
Theorem extractBillData_raises_iff (predictions : list RawPrediction) :
  let medicine := filterMedicinePredictions (convertToBboxFormat predictions) in
  extractBillData predictions = Throw TypeError
  <-> filter isAnchor medicine = []
      /\ exists r, In r predictions /\ raw_class r = None.
Proof.
  intros medicine.
  assert (Hiff : (exists p, In p medicine /\ class p = None)
                 <-> exists r, In r predictions /\ raw_class r = None).
  { split.
    - intros [p [Hin Hc]]. apply filter_In in Hin. destruct Hin as [Hin _].
      unfold convertToBboxFormat in Hin. apply in_map_iff in Hin.
      destruct Hin as [r [<- Hr]]. exists r. split; [exact Hr|exact Hc].
    - intros [r [Hr Hc]].
      exists (mkPrediction (raw_class r)
                (mkBBox (raw_x r) (raw_y r)
                        (Js.orZero (raw_width r)) (Js.orZero (raw_height r)))
                (Js.orZero (raw_confidence r)) (raw_value r)).
      split; [|exact Hc].
      apply filter_In. split.
      + unfold convertToBboxFormat. apply in_map_iff. exists r.
        split; [reflexivity|exact Hr].
      + unfold keepMedicine. cbn [class]. rewrite Hc. reflexivity. }
  rewrite <- Hiff, <- groupByRowCaptain_raises_when.
  unfold extractBillData. fold medicine.
  destruct (groupByRowCaptain medicine) as [rows|[]]; simpl; split;
    try discriminate; reflexivity.
Qed.

Lemma extractBillData_raises_iff_witness :
  extractBillData [ mkRaw (Some "Quantity") 0 0 None None None None;
                    mkRaw None 0 10 None None None None ] = Throw TypeError.
Proof.
  apply (proj2 (extractBillData_raises_iff
                  [ mkRaw (Some "Quantity") 0 0 None None None None;
                    mkRaw None 0 10 None None None None ])).
  split; [reflexivity|].
  exists (mkRaw None 0 10 None None None None).
  split; [right; left; reflexivity|reflexivity].
Defined.

(** ** The rows handed to the bill form *)

Lemma nth_error_indexed {A : Type} (l : list A) (i : nat) (a : A) :
  nth_error l i = Some a -> nth_error (indexed l) i = Some (i, a).
Proof.
  revert i a. induction l as [|c l IH] using rev_ind; intros i a H.
  - destruct i; discriminate.
  - rewrite indexed_snoc.
    assert (Hlen : List.length (indexed l) = List.length l).
    { unfold indexed. rewrite length_combine, length_seq. apply Nat.min_id. }
    destruct (Nat.lt_ge_cases i (List.length l)) as [Hlt|Hge].
    + rewrite nth_error_app1 in H by exact Hlt.
      rewrite nth_error_app1 by (rewrite Hlen; exact Hlt). apply IH, H.
    + rewrite nth_error_app2 in H by exact Hge.
      rewrite nth_error_app2 by (rewrite Hlen; exact Hge). rewrite Hlen.
      destruct (i - List.length l) as [|k] eqn:E.
      * simpl in *. injection H as <-. f_equal. f_equal. lia.
      * destruct k; discriminate.
Qed.

Lemma placeholderName_not_empty (i : nat) : placeholderName i <> "".
Proof.
  intros H. pose proof (placeholderName_prefix i) as Hp.
  rewrite H in Hp. discriminate.
Qed.

(** Every row that [extractBillData] returns has a name that is not the
    empty string. *)
Lemma medicines_named (predictions : list RawPrediction) (data : ExtractedBillData) :
  extractBillData predictions = Ok data ->
  totalMedicines data = List.length (medicines data)
  /\ forall row, In row (medicines data) ->
       exists name, medName row = Some name /\ name <> "".
Proof.
  unfold extractBillData.
  set (medicine := filterMedicinePredictions (convertToBboxFormat predictions)).
  destruct (groupByRowCaptain medicine) as [rows|e] eqn:Hr; [|discriminate].
  simpl. intros H. injection H as <-. simpl. split; [reflexivity|].
  intros row Hin. apply filter_In in Hin. destruct Hin as [Hin Hname].
  destruct (filter isAnchor medicine) as [|a l] eqn:Ea.
  - destruct medicine as [|q qs] eqn:Em.
    + simpl in Hr. injection Hr as <-. contradiction.
    + assert (Hc : forall p, In p (q :: qs) -> class p <> None).
      { intros p Hp Hn.
        assert (groupByRowCaptain (q :: qs) = Throw TypeError).
        { apply groupByRowCaptain_raises_when. split; [exact Ea|]. exists p. auto. }
        congruence. }
      rewrite fallback_row in Hr; [|discriminate|exact Ea|exact Hc].
      injection Hr as <-. destruct Hin as [<-|[]].
      pose proof (fallback_first_writer (q :: qs) emptyRow MedName) as Hw.
      cbn [getField medName emptyRow] in Hw.
      unfold hasName in Hname.
      change (fold_left fallbackFill qs (fallbackFill emptyRow q))
        with (fold_left fallbackFill (q :: qs) emptyRow) in *.
      rewrite Hw in *.
      destruct (find (classifiedAs MedName) (q :: qs)) as [p|] eqn:Ef; [|discriminate].
      apply find_some in Ef. destruct Ef as [_ Hcl].
      unfold classifiedAs in Hcl.
      destruct (class p) as [c|]; [|discriminate].
      exists c. split; [reflexivity|].
      intros ->. rewrite getFieldName_empty in Hcl. discriminate.
  - assert (Ha : filter isAnchor medicine <> []) by (rewrite Ea; discriminate).
    destruct (normal_rows_named medicine Ha) as [rows' [Hr' [_ Hnamed]]].
    assert (rows' = rows) by congruence. subst rows'.
    destruct (Hnamed row Hin) as [i Hi].
    exists (placeholderName i). split; [exact Hi|apply placeholderName_not_empty].
Qed.

(** X19.  For the rows returned by [extractBillData], the items built for
    the bill form are as many as [totalMedicines], and the name of each
    item is the name of its row: the default name "Item N" is never used.
    The other fields are those of the row, with "1" for a missing quantity,
    "0" for a missing amount and the empty string for a missing HSN code or
    batch. *)
Theorem ocr_results_keep_row_names (predictions : list RawPrediction)
  (data : ExtractedBillData) :
  extractBillData predictions = Ok data ->
  List.length (toOcrResults (medicines data)) = totalMedicines data
  /\ forall i row,
       nth_error (medicines data) i = Some row ->
       exists name,
         medName row = Some name
         /\ name <> ""
         /\ nth_error (toOcrResults (medicines data)) i
            = Some (Ocr.mkResult name
                      (orDefault (quantity row) "1")
                      (orDefault (amount row) "0")
                      (orDefault (hsnCode row) "")
                      (orDefault (batchExp row) "")
                      "" (8 # 10)).
Proof.
  intros H. destruct (medicines_named predictions data H) as [Htotal Hnamed].
  split.
  - unfold toOcrResults, indexed.
    rewrite length_map, length_combine, length_seq, Nat.min_id. symmetry. exact Htotal.
  - intros i row Hi.
    destruct (Hnamed row (nth_error_In _ _ Hi)) as [name [Hn Hne]].
    exists name. split; [exact Hn|]. split; [exact Hne|].
    unfold toOcrResults. rewrite nth_error_map, (nth_error_indexed _ _ _ Hi).
    cbn [option_map fst snd]. unfold toOcrResult. rewrite Hn.
    unfold orDefault at 1. destruct name; [contradiction Hne; reflexivity|reflexivity].
Qed.

Lemma ocr_results_keep_row_names_witness :
  List.length (toOcrResults [mkRow (Some "Medicine 1") None (Some "5") None None]) = 1
  /\ forall i row,
       nth_error [mkRow (Some "Medicine 1") None (Some "5") None None] i = Some row ->
       exists name,
         medName row = Some name
         /\ name <> ""
         /\ nth_error (toOcrResults [mkRow (Some "Medicine 1") None (Some "5") None None]) i
            = Some (Ocr.mkResult name
                      (orDefault (quantity row) "1")
                      (orDefault (amount row) "0")
                      (orDefault (hsnCode row) "")
                      (orDefault (batchExp row) "")
                      "" (8 # 10)).
Proof.
  apply (ocr_results_keep_row_names billExample
           (mkExtracted [mkRow (Some "Medicine 1") None (Some "5") None None]
                        (mkMetadata (Some "Customer Name") None None None None None) 1)).
  vm_compute. reflexivity.
Defined.

(** ** The comparator of the candidates *)

Lemma ltb_abs_sym (u v : Q) :
  Js.ltb (Js.double (1 # 100)) (Qabs (Js.sub u v))
  = Js.ltb (Js.double (1 # 100)) (Qabs (Js.sub v u)).
Proof.
  pose proof (sub_abs_sym u v) as Hs.
  destruct (Js.ltb (Js.double (1 # 100)) (Qabs (Js.sub v u))) eqn:E.
  - apply ltb_true in E. apply ltb_true. lra.
  - apply ltb_false in E. apply ltb_false. lra.
Qed.

(** X20.  The comparator of the candidates of a slot is antisymmetric,
    but it is not transitive: there are three candidates of which the first
    comes before the second, the second before the third and the third
    before the first. *)
Theorem compareCandidates_not_an_order :
  (forall a b, (compareCandidates a b == - compareCandidates b a)%Q)
  /\ (exists a b c,
        (compareCandidates a b < 0)%Q
        /\ (compareCandidates b c < 0)%Q
        /\ (compareCandidates c a < 0)%Q).
Proof.
  split.
  - intros a b. unfold compareCandidates. cbv zeta.
    rewrite (ltb_abs_sym (confidence b) (confidence a)).
    destruct (Js.ltb (Js.double (1 # 100))
                     (Qabs (Js.sub (confidence a) (confidence b)))); [|lra].
    unfold Js.sub.
    rewrite (double_comp (confidence b - confidence a)
                         (- (confidence a - confidence b))) by lra.
    apply double_opp.
  - exists (det "Amount" (mkBBox 10 0 0 0) (900 # 1000) None),
           (det "Amount" (mkBBox 20 0 0 0) (906 # 1000) None),
           (det "Amount" (mkBBox 30 0 0 0) (912 # 1000) None).
    repeat split; vm_compute; reflexivity.
Qed.

(** ** One detection, one metadata field *)

(** X21.  A detection of the metadata scan changes at most one field, and
    only from [null] to its own class label. *)
Theorem metadataStep_one_field (m : BillMetadata) (p : Prediction) :
  (forall f g,
     getMeta f (metadataStep m p) <> getMeta f m ->
     getMeta g (metadataStep m p) <> getMeta g m ->
     f = g)
  /\ (forall f,
        getMeta f (metadataStep m p) <> getMeta f m ->
        getMeta f m = None /\ getMeta f (metadataStep m p) = class p).
Proof.
  unfold metadataStep.
  destruct (isMedicineRelated (normalizeClassName (Js.orEmpty (class p))));
    [split; [intros f g H|intros f H]; contradiction H; reflexivity|].
  destruct (firstMatch m (Js.orEmpty (class p))) as [h|] eqn:Eh;
    [|split; [intros f g H|intros f H]; contradiction H; reflexivity].
  assert (Hone : forall f,
            getMeta f (setMeta h (Some (Js.orEmpty (class p))) m) <> getMeta f m ->
            f = h).
  { intros f H. destruct (MetaField_eq_dec f h) as [E|E]; [exact E|].
    rewrite getMeta_setMeta_other in H by exact E. contradiction H. reflexivity. }
  split.
  - intros f g Hf Hg. rewrite (Hone f Hf), (Hone g Hg). reflexivity.
  - intros f Hf. rewrite (Hone f Hf) in *.
    destruct (firstMatch_some _ _ _ Eh) as [Hn Hm].
    split; [exact Hn|]. rewrite getMeta_setMeta_same.
    destruct (class p) as [c|]; [reflexivity|].
    simpl in Hm. rewrite matchesMetadataField_empty in Hm. discriminate.
Qed.

Lemma metadataStep_one_field_witness :
  CustomerName = CustomerName
  /\ getMeta CustomerName emptyMetadata = None
  /\ getMeta CustomerName
       (metadataStep emptyMetadata (det "Patient Phone" (box 0 0) 1 None))
     = Some "Patient Phone".
Proof.
  destruct (metadataStep_one_field emptyMetadata
              (det "Patient Phone" (box 0 0) 1 None)) as [H1 H2].
  split.
  - apply H1; vm_compute; discriminate.
  - apply H2. vm_compute. discriminate.
Defined.
